(** * 7Semi TMP11x driver: register codec, transport model and facade

    A shallow embedding of [7Semi_TMP11x.h] / [7Semi_TMP11x.cpp]
    (TMP116/TMP117 temperature sensor on a two-wire bus).

    - unsigned 16-bit and 8-bit quantities are [Z] with the wrap-around
      written out ([u16], [u8]); [int16_t] is [Z] through [s16];
    - [float] is IEEE-754 binary32, taken from the Standard Library's
      [SpecFloat] at precision 24 and maximal exponent 128;
    - the [TwoWire] object is modelled with its transmit and receive
      buffers; what the bus and the device answer is a parameter
      ([Bus]), a function of everything that happened before;
    - every bus transaction and every [delay] is appended to a log, so
      that orderings and counts can be stated;
    - bit-level lemmas on [Z] ([Z.testbit_mod_pow2], [Z.or_to_plus], ...)
      come from coqutil. *)

From Stdlib Require Import ZArith List Bool Lia.
From Stdlib Require Import Floats.SpecFloat.
From coqutil Require Import Z.bitblast.
From Stdlib Require String.
Import ListNotations.
Import String.StringSyntax.
Delimit Scope string_scope with string.
Local Open Scope Z_scope.

(** ** Machine integers *)

Definition u8 (z : Z) : Z := z mod 2 ^ 8.
Definition u16 (z : Z) : Z := z mod 2 ^ 16.

(** [(int16_t)x] for a 16-bit pattern [x]. *)
Definition s16 (z : Z) : Z :=
  let w := u16 z in if w <? 2 ^ 15 then w else w - 2 ^ 16.

(** ** Register map *)

Definition REG_TEMP : Z := 0x00.
Definition REG_CONFIG : Z := 0x01.
Definition REG_T_HIGH : Z := 0x02.
Definition REG_T_LOW : Z := 0x03.
Definition REG_EEPROM_UL : Z := 0x04.
Definition REG_EEPROM1 : Z := 0x05.
Definition REG_EEPROM2 : Z := 0x06.
Definition REG_TEMP_OFFSET : Z := 0x07.
Definition REG_EEPROM3 : Z := 0x08.
Definition REG_DEVICE_ID : Z := 0x0F.

(** ** Configuration options *)

Inductive TMP11x_MODE := CONTINUOUS_0 | SHUTDOWN | CONTINUOUS_2 | ONE_SHOT.
Inductive TMP11x_AVG := AVG_NONE | AVG_8 | AVG_32 | AVG_64.
Inductive TMP11x_CONV :=
| CONV_15P5MS | CONV_125MS | CONV_250MS | CONV_500MS
| CONV_1S | CONV_4S | CONV_8S | CONV_16S.
Inductive TMP11x_THERM_ALERT := ALERT_MODE | THERM_MODE.
Inductive TMP11x_ALERT_POLARITY := ALERT_ACTIVE_LOW | ALERT_ACTIVE_HIGH.

Definition mode_val (m : TMP11x_MODE) : Z :=
  match m with CONTINUOUS_0 => 0 | SHUTDOWN => 1 | CONTINUOUS_2 => 2 | ONE_SHOT => 3 end.
Definition avg_val (a : TMP11x_AVG) : Z :=
  match a with AVG_NONE => 0 | AVG_8 => 1 | AVG_32 => 2 | AVG_64 => 3 end.
Definition conv_val (c : TMP11x_CONV) : Z :=
  match c with
  | CONV_15P5MS => 0 | CONV_125MS => 1 | CONV_250MS => 2 | CONV_500MS => 3
  | CONV_1S => 4 | CONV_4S => 5 | CONV_8S => 6 | CONV_16S => 7
  end.
Definition therm_val (t : TMP11x_THERM_ALERT) : Z :=
  match t with ALERT_MODE => 0 | THERM_MODE => 1 end.
Definition polarity_val (p : TMP11x_ALERT_POLARITY) : Z :=
  match p with ALERT_ACTIVE_LOW => 0 | ALERT_ACTIVE_HIGH => 1 end.

(** ** Register codec

    The bit manipulation of each setter and getter, as the statements
    between [readConfig] and [writeConfig] have it. The argument [v] is
    the integer value of the enumerator. *)

Module Codec.

(** [setConversionRate]: [cfg &= ~(0x07 << 7); cfg |= ((conversionRate & 0x07) << 7);] *)
Definition packConversionRate (cfg v : Z) : Z :=
  let cfg := u16 (Z.land cfg (Z.lnot (Z.shiftl 0x07 7))) in
  u16 (Z.lor cfg (Z.shiftl (Z.land v 0x07) 7)).

(** [getConversionRate]: [conversionRate = (cfg >> 7) & 0x07;] *)
Definition unpackConversionRate (cfg : Z) : Z :=
  u8 (Z.land (Z.shiftr cfg 7) 0x07).

(** [setAveraging]: [cfg &= ~(0x03 << 5); cfg |= ((avg & 0x03) << 5);] *)
Definition packAveraging (cfg v : Z) : Z :=
  let cfg := u16 (Z.land cfg (Z.lnot (Z.shiftl 0x03 5))) in
  u16 (Z.lor cfg (Z.shiftl (Z.land v 0x03) 5)).

(** [getAveraging]: [avg = (cfg >> 5) & 0x03;] *)
Definition unpackAveraging (cfg : Z) : Z :=
  u8 (Z.land (Z.shiftr cfg 5) 0x03).

(** [setMode]: [cfg &= ~(0x03 << 10); cfg |= ((uint16_t)mode & 0x03) << 10;] *)
Definition packMode (cfg v : Z) : Z :=
  let cfg := u16 (Z.land cfg (Z.lnot (Z.shiftl 0x03 10))) in
  u16 (Z.lor cfg (Z.shiftl (Z.land (u16 v) 0x03) 10)).

(** [getMode]: [mode = (uint8_t)((cfg >> 10) & 0x03);] *)
Definition unpackMode (cfg : Z) : Z :=
  u8 (Z.land (Z.shiftr cfg 10) 0x03).

(** [setThermAlertMode]: [cfg &= ~(1 << 4); cfg |= ((mode & 0x01) << 4);] *)
Definition packThermAlert (cfg v : Z) : Z :=
  let cfg := u16 (Z.land cfg (Z.lnot (Z.shiftl 1 4))) in
  u16 (Z.lor cfg (Z.shiftl (Z.land v 0x01) 4)).

(** [getThermAlertMode]: [mode = (cfg >> 4) & 0x01;] *)
Definition unpackThermAlert (cfg : Z) : Z :=
  u8 (Z.land (Z.shiftr cfg 4) 0x01).

(** [setAlertPolarity]:
    [if (active_high) config |= (1 << 3); else config &= ~(1 << 3);] *)
Definition packPolarity (cfg v : Z) : Z :=
  if v =? 0
  then u16 (Z.land cfg (Z.lnot (Z.shiftl 1 3)))
  else u16 (Z.lor cfg (Z.shiftl 1 3)).

(** [getAlertPolarity]: [active_high = (config >> 3) & 0x01;] *)
Definition unpackPolarity (cfg : Z) : Z :=
  u8 (Z.land (Z.shiftr cfg 3) 0x01).

(** The five fields of the configuration word. *)
Inductive Field := FMode | FConvRate | FAveraging | FThermAlert | FPolarity.

(** Lowest bit and number of bits of each field (11:10, 9:7, 6:5, 4, 3). *)
Definition field_lsb (f : Field) : Z :=
  match f with
  | FMode => 10 | FConvRate => 7 | FAveraging => 5 | FThermAlert => 4 | FPolarity => 3
  end.
Definition field_width (f : Field) : Z :=
  match f with
  | FMode => 2 | FConvRate => 3 | FAveraging => 2 | FThermAlert => 1 | FPolarity => 1
  end.

Definition packField (cfg : Z) (f : Field) (v : Z) : Z :=
  match f with
  | FMode => packMode cfg v
  | FConvRate => packConversionRate cfg v
  | FAveraging => packAveraging cfg v
  | FThermAlert => packThermAlert cfg v
  | FPolarity => packPolarity cfg v
  end.

Definition unpackField (cfg : Z) (f : Field) : Z :=
  match f with
  | FMode => unpackMode cfg
  | FConvRate => unpackConversionRate cfg
  | FAveraging => unpackAveraging cfg
  | FThermAlert => unpackThermAlert cfg
  | FPolarity => unpackPolarity cfg
  end.

Definition Field_eq_dec (f g : Field) : {f = g} + {f <> g}.
Proof. decide equality. Defined.

(** Whether bit [i] lies in the span of field [f]. *)
Definition in_span (f : Field) (i : Z) : bool :=
  (field_lsb f <=? i) && (i <? field_lsb f + field_width f).

End Codec.

(** ** Temperature codec

    [float] is binary32. The literal [0.0078125f] is exactly [2^-7],
    [1.8f] is the binary32 number nearest to 1.8 and [32.0f] is exact. *)

Definition float32 : Type := spec_float.

Definition f32_mul : float32 -> float32 -> float32 := SFmul 24 128.
Definition f32_div : float32 -> float32 -> float32 := SFdiv 24 128.
Definition f32_add : float32 -> float32 -> float32 := SFadd 24 128.

(** Conversion of an [int] to [float] (round to nearest even). *)
Definition f32_of_int (z : Z) : float32 := binary_normalize 24 128 z 0 false.

Definition f32_0_0078125 : float32 := S754_finite false 8388608 (-30).
Definition f32_1_8 : float32 := S754_finite false 15099494 (-23).
Definition f32_32_0 : float32 := S754_finite false 8388608 (-18).

(** Conversion of a [float] to an integer type discards the fractional
    part (truncation toward zero); it is undefined for NaN and the
    infinities, and when the truncated value does not fit the target. *)
Definition f32_trunc (x : float32) : option Z :=
  match x with
  | S754_zero _ => Some 0
  | S754_finite s m e =>
      let mag := if 0 <=? e then Z.pos m * 2 ^ e else Z.pos m / 2 ^ (- e) in
      Some (if s then - mag else mag)
  | S754_infinity _ => None
  | S754_nan => None
  end.

Definition f32_to_int16 (x : float32) : option Z :=
  match f32_trunc x with
  | Some t => if (- 2 ^ 15 <=? t) && (t <? 2 ^ 15) then Some t else None
  | None => None
  end.

(** [return raw * 0.0078125f;] with [raw] an [int16_t]. *)
Definition rawToCelsius (raw : Z) : float32 :=
  f32_mul (f32_of_int raw) f32_0_0078125.

(** [return (int16_t)(temp / 0.0078125f);] ([None]: undefined conversion). *)
Definition celsiusToRaw (temp : float32) : option Z :=
  f32_to_int16 (f32_div temp f32_0_0078125).

(** ** The two-wire bus

    A [TwoWire] object keeps the address and bytes queued between
    [beginTransmission] and [endTransmission], and the bytes received by
    the last [requestFrom]. Objects are named by a [Port] ([Wire],
    [Wire1], ...). *)

Definition Port : Type := nat.

Record TwoWire : Type := mkTwoWire {
  txAddress : Z;
  txBuffer : list Z;
  rxBuffer : list Z
}.

(** What can be observed from outside, in the order it happens. *)
Inductive Event : Type :=
| EvBegin (port : Port) (pins : option (Z * Z))
| EvSetClock (port : Port) (hz : Z)
| EvTransmit (port : Port) (addr : Z) (bytes : list Z) (sendStop : bool) (status : Z)
| EvRequest (port : Port) (addr : Z) (quantity : Z) (received : list Z)
| EvDelay (ms : Z).

(** The environment: the status [endTransmission] reports for a
    transmission and the bytes a slave delivers to [requestFrom], each
    as a function of the history so far. *)
Record Bus : Type := mkBus {
  ack : list Event -> Port -> Z -> list Z -> bool -> Z;
  reply : list Event -> Port -> Z -> Z -> list Z
}.

(** ** The facade object and the program state *)

Record TMP11x_7Semi : Type := mkTMP11x {
  i2c : Port;
  address : Z
}.

Record State : Type := mkState {
  self : TMP11x_7Semi;
  wires : Port -> TwoWire;
  log : list Event
}.

Definition upd (f : Port -> TwoWire) (p : Port) (w : TwoWire) : Port -> TwoWire :=
  fun q => if Nat.eqb q p then w else f q.

(** State-passing computations. *)
Definition M (A : Type) : Type := State -> A * State.

Definition ret {A : Type} (a : A) : M A := fun s => (a, s).

Definition bind {A B : Type} (c : M A) (k : A -> M B) : M B :=
  fun s => let (a, s') := c s in k a s'.

Declare Scope m_scope.
Delimit Scope m_scope with m.
Notation "x <- c ;; k" := (bind c (fun x => k))
  (at level 61, c at next level, right associativity) : m_scope.
Notation "c ;; k" := (bind c (fun _ => k))
  (at level 61, right associativity) : m_scope.
Local Open Scope m_scope.

Definition this : M TMP11x_7Semi := fun s => (self s, s).

Definition set_address (a : Z) : M unit :=
  fun s => (tt, mkState (mkTMP11x (i2c (self s)) a) (wires s) (log s)).

Definition set_wire (p : Port) (w : TwoWire) : M unit :=
  fun s => (tt, mkState (self s) (upd (wires s) p w) (log s)).

Definition get_wire (p : Port) : M TwoWire := fun s => (wires s p, s).

Definition emit (e : Event) : M unit :=
  fun s => (tt, mkState (self s) (wires s) (log s ++ [e])).

Definition history : M (list Event) := fun s => (log s, s).

(** [delay(ms)] *)
Definition delay (ms : Z) : M unit := emit (EvDelay ms).

Section Driver.

Variable bus : Bus.

(** Whether the build is for ESP32 or ESP8266 (custom SDA/SCL pins). *)
Variable esp : bool.

(** *** TwoWire primitives *)

Definition Wire_begin (p : Port) (pins : option (Z * Z)) : M unit :=
  emit (EvBegin p pins).

Definition Wire_setClock (p : Port) (hz : Z) : M unit :=
  emit (EvSetClock p hz).

Definition Wire_beginTransmission (p : Port) (a : Z) : M unit :=
  w <- get_wire p ;;
  set_wire p (mkTwoWire a [] (rxBuffer w)).

Definition Wire_write (p : Port) (b : Z) : M unit :=
  w <- get_wire p ;;
  set_wire p (mkTwoWire (txAddress w) (txBuffer w ++ [u8 b]) (rxBuffer w)).

Definition Wire_endTransmission (p : Port) (sendStop : bool) : M Z :=
  w <- get_wire p ;;
  h <- history ;;
  let status := ack bus h p (txAddress w) (txBuffer w) sendStop in
  emit (EvTransmit p (txAddress w) (txBuffer w) sendStop status) ;;
  set_wire p (mkTwoWire (txAddress w) [] (rxBuffer w)) ;;
  ret status.

Definition Wire_requestFrom (p : Port) (a : Z) (quantity : Z) : M Z :=
  w <- get_wire p ;;
  h <- history ;;
  let received := firstn (Z.to_nat quantity) (map u8 (reply bus h p a quantity)) in
  emit (EvRequest p a quantity received) ;;
  set_wire p (mkTwoWire (txAddress w) (txBuffer w) received) ;;
  ret (Z.of_nat (length received)).

(** [read()] returns [-1] when nothing is left to read. *)
Definition Wire_read (p : Port) : M Z :=
  w <- get_wire p ;;
  match rxBuffer w with
  | [] => ret (-1)
  | b :: rest => set_wire p (mkTwoWire (txAddress w) (txBuffer w) rest) ;; ret b
  end.

(** *** Low-level register access

    An output reference parameter is passed as its current content and
    returned with the status. The operands of [|] in [readReg] are
    evaluated left to right. *)

Definition readReg (reg : Z) (value : Z) : M (bool * Z) :=
  d <- this ;;
  Wire_beginTransmission (i2c d) (address d) ;;
  Wire_write (i2c d) reg ;;
  st <- Wire_endTransmission (i2c d) false ;;
  if negb (st =? 0) then ret (false, value) else
  n <- Wire_requestFrom (i2c d) (address d) 2 ;;
  if negb (n =? 2) then ret (false, value) else
  hi <- Wire_read (i2c d) ;;
  lo <- Wire_read (i2c d) ;;
  ret (true, u16 (Z.lor (Z.shiftl (u16 hi) 8) lo)).

Definition writeReg (reg : Z) (value : Z) : M bool :=
  d <- this ;;
  Wire_beginTransmission (i2c d) (address d) ;;
  Wire_write (i2c d) reg ;;
  Wire_write (i2c d) (Z.shiftr value 8) ;;
  Wire_write (i2c d) (Z.land value 0xFF) ;;
  st <- Wire_endTransmission (i2c d) true ;;
  ret (st =? 0).

(** The content of a local variable that is declared without an
    initialiser; it is only ever passed as an output parameter. *)
Definition uninit16 : Z := 0.
Definition uninitf : float32 := S754_zero false.

(** *** Device *)

Definition getDeviceID (deviceID : Z) : M (bool * Z) :=
  readReg REG_DEVICE_ID deviceID.

(** *** Initialization *)

Definition begin (i2cAddress sda scl i2cClockSpeed : Z) : M bool :=
  set_address i2cAddress ;;
  d <- this ;;
  (if esp then
     if negb (sda =? 0xFF) && negb (scl =? 0xFF)
     then Wire_begin (i2c d) (Some (sda, scl))
     else Wire_begin (i2c d) None
   else Wire_begin (i2c d) None) ;;
  Wire_setClock (i2c d) i2cClockSpeed ;;
  r <- getDeviceID uninit16 ;;
  let (ok, deviceID) := r in
  if negb ok then ret false else
  if (deviceID =? 0x0117) || (deviceID =? 0x1116) then ret true else
  ret false.

(** *** Temperature *)

Definition readRawTemperature (rawTemperature : Z) : M (bool * Z) :=
  r <- readReg REG_TEMP uninit16 ;;
  let (ok, raw) := r in
  if negb ok then ret (false, rawTemperature) else
  ret (true, s16 raw).

Definition readTemperatureC (temperatureC : float32) : M (bool * float32) :=
  r <- readRawTemperature uninit16 ;;
  let (ok, raw) := r in
  if negb ok then ret (false, temperatureC) else
  ret (true, rawToCelsius raw).

Definition readTemperatureF (temperatureF : float32) : M (bool * float32) :=
  r <- readTemperatureC uninitf ;;
  let (ok, tempC) := r in
  if negb ok then ret (false, temperatureF) else
  ret (true, f32_add (f32_mul tempC f32_1_8) f32_32_0).

(** *** Configuration *)

Definition readConfig (config : Z) : M (bool * Z) :=
  readReg REG_CONFIG config.

Definition writeConfig (config : Z) : M bool :=
  writeReg REG_CONFIG config.

Definition reset : M bool := writeConfig 0x8000.

(** *** Conversion rate *)

Definition setConversionRate (conversionRate : TMP11x_CONV) : M bool :=
  r <- readConfig uninit16 ;;
  let (ok, cfg) := r in
  if negb ok then ret false else
  writeConfig (Codec.packConversionRate cfg (conv_val conversionRate)).

Definition getConversionRate (conversionRate : Z) : M (bool * Z) :=
  r <- readConfig uninit16 ;;
  let (ok, cfg) := r in
  if negb ok then ret (false, conversionRate) else
  ret (true, Codec.unpackConversionRate cfg).

(** *** Averaging *)

Definition setAveraging (avg : TMP11x_AVG) : M bool :=
  r <- readConfig uninit16 ;;
  let (ok, cfg) := r in
  if negb ok then ret false else
  writeConfig (Codec.packAveraging cfg (avg_val avg)).

Definition getAveraging (avg : Z) : M (bool * Z) :=
  r <- readConfig uninit16 ;;
  let (ok, cfg) := r in
  if negb ok then ret (false, avg) else
  ret (true, Codec.unpackAveraging cfg).

(** *** Power / mode *)

Definition setMode (mode : TMP11x_MODE) : M bool :=
  r <- readConfig uninit16 ;;
  let (ok, cfg) := r in
  if negb ok then ret false else
  writeConfig (Codec.packMode cfg (mode_val mode)).

Definition getMode (mode : Z) : M (bool * Z) :=
  r <- readConfig uninit16 ;;
  let (ok, cfg) := r in
  if negb ok then ret (false, mode) else
  ret (true, Codec.unpackMode cfg).

(** *** Alert limits and offset

    [celsiusToRaw] yields an [int16_t] that is converted to the
    [uint16_t] parameter of [writeReg]. The setters have no defined
    behaviour ([None]) where [celsiusToRaw] has none. *)

Definition setHighLimit (tempC : float32) : option (M bool) :=
  option_map (fun raw => writeReg REG_T_HIGH (u16 raw)) (celsiusToRaw tempC).

Definition setLowLimit (tempC : float32) : option (M bool) :=
  option_map (fun raw => writeReg REG_T_LOW (u16 raw)) (celsiusToRaw tempC).

Definition getHighLimit (tempC : float32) : M (bool * float32) :=
  r <- readReg REG_T_HIGH uninit16 ;;
  let (ok, raw) := r in
  if negb ok then ret (false, tempC) else
  ret (true, rawToCelsius (s16 raw)).

Definition getLowLimit (tempC : float32) : M (bool * float32) :=
  r <- readReg REG_T_LOW uninit16 ;;
  let (ok, raw) := r in
  if negb ok then ret (false, tempC) else
  ret (true, rawToCelsius (s16 raw)).

Definition setOffset (offsetC : float32) : option (M bool) :=
  option_map (fun raw => writeReg REG_TEMP_OFFSET (u16 raw)) (celsiusToRaw offsetC).

Definition getOffset (offsetC : float32) : M (bool * float32) :=
  r <- readReg REG_TEMP_OFFSET uninit16 ;;
  let (ok, raw) := r in
  if negb ok then ret (false, offsetC) else
  ret (true, rawToCelsius (s16 raw)).

(** *** Alert polarity *)

Definition setAlertPolarity (active_high : TMP11x_ALERT_POLARITY) : M bool :=
  r <- readConfig uninit16 ;;
  let (ok, config) := r in
  if negb ok then ret false else
  writeConfig (Codec.packPolarity config (polarity_val active_high)).

Definition getAlertPolarity (active_high : Z) : M (bool * Z) :=
  r <- readConfig uninit16 ;;
  let (ok, config) := r in
  if negb ok then ret (false, active_high) else
  ret (true, Codec.unpackPolarity config).

(** *** Therm / alert mode *)

Definition setThermAlertMode (mode : TMP11x_THERM_ALERT) : M bool :=
  r <- readConfig uninit16 ;;
  let (ok, cfg) := r in
  if negb ok then ret false else
  writeConfig (Codec.packThermAlert cfg (therm_val mode)).

Definition getThermAlertMode (mode : Z) : M (bool * Z) :=
  r <- readConfig uninit16 ;;
  let (ok, cfg) := r in
  if negb ok then ret (false, mode) else
  ret (true, Codec.unpackThermAlert cfg).

(** *** EEPROM lock / unlock *)

Definition unlockEEPROM : M bool :=
  let ul := 0x8000 in
  ok <- writeReg REG_EEPROM_UL ul ;;
  if negb ok then ret false else
  delay 2 ;;
  ret true.

Definition lockEEPROM : M bool :=
  let ul := 0x0000 in
  ok <- writeReg REG_EEPROM_UL ul ;;
  if negb ok then ret false else
  delay 2 ;;
  ret true.

(** *** EEPROM *)

(** [reg != REG_EEPROM1 && reg != REG_EEPROM2 && reg != REG_EEPROM3] *)
Definition not_eeprom (reg : Z) : bool :=
  negb (reg =? REG_EEPROM1) && negb (reg =? REG_EEPROM2) && negb (reg =? REG_EEPROM3).

Definition readEEPROM (reg : Z) (value : Z) : M (bool * Z) :=
  if not_eeprom reg then ret (false, value) else
  readReg reg value.

Definition writeEEPROM (reg : Z) (value : Z) : M bool :=
  if not_eeprom reg then ret false else
  ok <- unlockEEPROM ;;
  if negb ok then ret false else
  ok <- writeReg reg value ;;
  if negb ok then ret false else
  delay 10 ;;
  lockEEPROM ;;
  ret true.

(** *** The public operations, as data *)

(** Operations that deliver their result through an output reference
    parameter. *)
Inductive Getter : Type :=
| GReadRawTemperature | GReadTemperatureC | GReadTemperatureF
| GReadConfig | GGetConversionRate | GGetAveraging | GGetMode
| GGetHighLimit | GGetLowLimit | GGetOffset
| GGetThermAlertMode | GGetAlertPolarity
| GReadEEPROM (reg : Z) | GGetDeviceID.

Definition out_type (g : Getter) : Type :=
  match g with
  | GReadTemperatureC | GReadTemperatureF
  | GGetHighLimit | GGetLowLimit | GGetOffset => float32
  | _ => Z
  end.

Definition run_getter (g : Getter) : out_type g -> M (bool * out_type g) :=
  match g with
  | GReadRawTemperature => readRawTemperature
  | GReadTemperatureC => readTemperatureC
  | GReadTemperatureF => readTemperatureF
  | GReadConfig => readConfig
  | GGetConversionRate => getConversionRate
  | GGetAveraging => getAveraging
  | GGetMode => getMode
  | GGetHighLimit => getHighLimit
  | GGetLowLimit => getLowLimit
  | GGetOffset => getOffset
  | GGetThermAlertMode => getThermAlertMode
  | GGetAlertPolarity => getAlertPolarity
  | GReadEEPROM reg => readEEPROM reg
  | GGetDeviceID => getDeviceID
  end.

(** The read-modify-write setters of the configuration register. *)
Inductive Setter : Type :=
| SSetMode (mode : TMP11x_MODE)
| SSetAveraging (avg : TMP11x_AVG)
| SSetConversionRate (conversionRate : TMP11x_CONV)
| SSetAlertPolarity (active_high : TMP11x_ALERT_POLARITY)
| SSetThermAlertMode (mode : TMP11x_THERM_ALERT).

Definition run_setter (x : Setter) : M bool :=
  match x with
  | SSetMode m => setMode m
  | SSetAveraging a => setAveraging a
  | SSetConversionRate c => setConversionRate c
  | SSetAlertPolarity p => setAlertPolarity p
  | SSetThermAlertMode t => setThermAlertMode t
  end.

Definition setter_field (x : Setter) : Codec.Field :=
  match x with
  | SSetMode _ => Codec.FMode
  | SSetAveraging _ => Codec.FAveraging
  | SSetConversionRate _ => Codec.FConvRate
  | SSetAlertPolarity _ => Codec.FPolarity
  | SSetThermAlertMode _ => Codec.FThermAlert
  end.

(** Every public member function with its arguments. *)
Inductive Call : Type :=
| CBegin (i2cAddress sda scl i2cClockSpeed : Z)
| CGet (g : Getter) (out : out_type g)
| CSet (x : Setter)
| CWriteConfig (config : Z)
| CReset
| CSetHighLimit (tempC : float32)
| CSetLowLimit (tempC : float32)
| CSetOffset (offsetC : float32)
| CWriteEEPROM (reg value : Z).

Definition is_begin (c : Call) : bool :=
  match c with CBegin _ _ _ _ => true | _ => false end.

(** One call: the status it returns and the state it leaves; [None]
    where the call has no defined behaviour. *)
Definition exec (c : Call) (s : State) : option (bool * State) :=
  match c with
  | CBegin a sda scl hz => Some (begin a sda scl hz s)
  | CGet g out => let (r, s') := run_getter g out s in Some (fst r, s')
  | CSet x => Some (run_setter x s)
  | CWriteConfig config => Some (writeConfig config s)
  | CReset => Some (reset s)
  | CSetHighLimit t => option_map (fun m : M bool => m s) (setHighLimit t)
  | CSetLowLimit t => option_map (fun m : M bool => m s) (setLowLimit t)
  | CSetOffset t => option_map (fun m : M bool => m s) (setOffset t)
  | CWriteEEPROM reg value => Some (writeEEPROM reg value s)
  end.

(** A sequence of calls, one after the other. *)
Fixpoint exec_all (cs : list Call) (s : State) : option State :=
  match cs with
  | [] => Some s
  | c :: rest =>
      match exec c s with
      | Some (_, s') => exec_all rest s'
      | None => None
      end
  end.

End Driver.

Arguments readReg bus reg value _ : simpl never.
Arguments writeReg bus reg value _ : simpl never.

(** ** Vocabulary for the statements *)

(** Clearing [w] bits at [s] and or-ing in [v]: the shape shared by the
    mask-and-shift setters. *)
Definition rmw (s w cfg v : Z) : Z :=
  u16 (Z.lor (u16 (Z.land cfg (Z.lnot (Z.shiftl (Z.ones w) s))))
             (Z.shiftl (Z.land v (Z.ones w)) s)).

(** The three bytes [writeReg] queues: register, high byte, low byte. *)
Definition write_bytes (reg value : Z) : list Z :=
  [u8 reg; u8 (Z.shiftr value 8); u8 (Z.land value 0xFF)].

(** A register write by the facade [d], with the status the bus gave. *)
Definition write_txn (d : TMP11x_7Semi) (reg value status : Z) : Event :=
  EvTransmit (i2c d) (address d) (write_bytes reg value) true status.

(** The two halves of a register read: the register pointer sent with a
    repeated start, and the request for two bytes. *)
Definition pointer_txn (d : TMP11x_7Semi) (reg status : Z) : Event :=
  EvTransmit (i2c d) (address d) [u8 reg] false status.

Definition fetch_txn (d : TMP11x_7Semi) (received : list Z) : Event :=
  EvRequest (i2c d) (address d) 2 received.

(** What the bus answers to a register write, resp. to the two halves of
    a register read, issued by [d] after history [h]. *)
Definition write_status (bus : Bus) (h : list Event) (d : TMP11x_7Semi) (reg value : Z) : Z :=
  ack bus h (i2c d) (address d) (write_bytes reg value) true.

Definition pointer_status (bus : Bus) (h : list Event) (d : TMP11x_7Semi) (reg : Z) : Z :=
  ack bus h (i2c d) (address d) [u8 reg] false.

Definition fetched (bus : Bus) (h : list Event) (d : TMP11x_7Semi) : list Z :=
  firstn 2 (map u8 (reply bus h (i2c d) (address d) 2)).

(** Outcome of a register read by [d] after history [h]: the value when
    the read succeeds, and the events it adds to the log. *)
Definition read_outcome (bus : Bus) (h : list Event) (d : TMP11x_7Semi) (reg : Z)
  : option Z * list Event :=
  let st := pointer_status bus h d reg in
  if negb (st =? 0) then (None, [pointer_txn d reg st]) else
  let got := fetched bus (h ++ [pointer_txn d reg st]) d in
  match got with
  | [hi; lo] => (Some (hi * 256 + lo), [pointer_txn d reg st; fetch_txn d got])
  | _ => (None, [pointer_txn d reg st; fetch_txn d got])
  end.

(** An event that names a port or a slave names those of the facade [d]. *)
Definition addressed_to (d : TMP11x_7Semi) (e : Event) : Prop :=
  match e with
  | EvBegin p _ => p = i2c d
  | EvSetClock p _ => p = i2c d
  | EvTransmit p a _ _ _ => p = i2c d /\ a = address d
  | EvRequest p a _ _ => p = i2c d /\ a = address d
  | EvDelay _ => True
  end.

(** A computation that leaves the facade's members alone and only talks
    to the facade's own port and slave address. *)
Definition stable {A : Type} (m : M A) : Prop :=
  forall s, self (snd (m s)) = self s /\
            exists evs, log (snd (m s)) = log s ++ evs /\
                        Forall (addressed_to (self s)) evs.

(** Calls whose behaviour is defined: every call but a limit or offset
    setter whose argument does not convert to [int16_t]. *)
Definition defined (c : Call) : bool :=
  match c with
  | CSetHighLimit t | CSetLowLimit t | CSetOffset t =>
      match celsiusToRaw t with Some _ => true | None => false end
  | _ => true
  end.

(** Exactness of a binary32 value: [x = n * 2^e]. *)
Definition f32_is (x : float32) (n e : Z) : bool :=
  match x with
  | S754_zero _ => n =? 0
  | S754_finite s m ex =>
      let k := Z.min ex e in
      (if s then - Z.pos m else Z.pos m) * 2 ^ (ex - k) =? n * 2 ^ (e - k)
  | _ => false
  end.

(** [P] on every integer whose binary numeral is the prefix [p]
    followed by [k] more bits. *)
Fixpoint all_bits (k : nat) (p : Z) (P : Z -> bool) : bool :=
  match k with
  | O => P p
  | S k' => all_bits k' (2 * p) P && all_bits k' (2 * p + 1) P
  end.

(** The check made on each [int16_t] code: [rawToCelsius] is exact and
    [celsiusToRaw] brings the code back. *)
Definition code_roundtrip_ok (code : Z) : bool :=
  let x := rawToCelsius code in
  f32_is x code (-7) &&
  match celsiusToRaw x with
  | Some c => c =? code
  | None => false
  end.

(** The pins [begin] hands to [TwoWire::begin]: custom pins only on
    ESP32/ESP8266 builds and only when both differ from [0xFF]. *)
Definition begin_pins (esp : bool) (sda scl : Z) : option (Z * Z) :=
  if esp && (negb (sda =? 0xFF) && negb (scl =? 0xFF)) then Some (sda, scl) else None.

(** The integer a setter packs into its field. *)
Definition setter_val (x : Setter) : Z :=
  match x with
  | SSetMode m => mode_val m
  | SSetAveraging a => avg_val a
  | SSetConversionRate c => conv_val c
  | SSetAlertPolarity p => polarity_val p
  | SSetThermAlertMode t => therm_val t
  end.

(** ** Reference environments *)

(** A facade on port 0 at the default slave address, nothing logged. *)
Definition s0 : State :=
  mkState (mkTMP11x 0%nat 0x48) (fun _ => mkTwoWire 0 [] []) [].

(** No device answers: every transmission is refused (status 2, address
    NACK) and nothing is received. *)
Definition dead_bus : Bus :=
  mkBus (fun _ _ _ _ _ => 2) (fun _ _ _ _ => []).

(** A plain register-file device behind every port and address: a
    three-byte transmission stores a register, the first byte of any
    transmission sets the register pointer, a request returns the
    register under the pointer, high byte first. *)
Record Dev : Type := mkDev {
  pointer : Z;
  cells : Z -> Z
}.

Definition dev_write (d : Dev) (r : Z) (payload : list Z) : Dev :=
  mkDev r (match payload with
           | [hi; lo] => fun q => if q =? r then hi * 256 + lo else cells d q
           | _ => cells d
           end).

Definition sim_step (img : Port -> Z -> Dev) (e : Event) : Port -> Z -> Dev :=
  match e with
  | EvTransmit p a (r :: payload) _ 0 =>
      fun q b => if Nat.eqb q p && (b =? a) then dev_write (img p a) r payload
                 else img q b
  | _ => img
  end.

Definition sim_image (h : list Event) : Port -> Z -> Dev :=
  fold_left sim_step h (fun _ _ => mkDev 0 (fun _ => 0)).

Definition sim_bus : Bus :=
  mkBus (fun _ _ _ _ _ => 0)
        (fun h p a _ =>
           let d := sim_image h p a in
           let v := cells d (pointer d) in
           [Z.shiftr v 8; Z.land v 0xFF]).

(** A register file that holds a TMP117 identity and refuses the write
    that locks the EEPROM (all-zero to the unlock register). *)
Definition lock_fail_bus : Bus :=
  mkBus (fun _ _ _ bytes _ =>
           match bytes with
           | [4; 0; 0] => 4
           | _ => 0
           end)
        (reply sim_bus).

(** The event list the four-step description of an EEPROM write gives
    when every write is acknowledged. *)
Definition four_step_trace (d : TMP11x_7Semi) (reg value : Z) : list Event :=
  [write_txn d REG_EEPROM_UL 0x8000 0; EvDelay 2;
   write_txn d reg value 0; EvDelay 10;
   write_txn d REG_EEPROM_UL 0x0000 0].

(** Truncation toward zero of a binary32 number [q] to the integer
    [c]: [c] has the sign of [q] and is the integer of largest
    magnitude whose magnitude does not exceed that of [q]. The value of
    a finite [q] is [m * 2^e], written here without a fraction. *)
Definition truncates_to (q : float32) (c : Z) : Prop :=
  match q with
  | S754_zero _ => c = 0
  | S754_finite s m e =>
      (if s then c <= 0 else 0 <= c) /\
      Z.abs c * 2 ^ Z.max 0 (- e) <= Z.pos m * 2 ^ Z.max 0 e
      < (Z.abs c + 1) * 2 ^ Z.max 0 (- e)
  | _ => False
  end.

(** The events a configuration setter of facade [d] adds after history
    [h]: the read of the configuration register and, when that read
    delivers a word [v], the write of [v] with the setter's field
    replaced. *)
Definition setter_events (bus : Bus) (h : list Event) (d : TMP11x_7Semi) (x : Setter)
  : list Event :=
  let rd := read_outcome bus h d REG_CONFIG in
  match fst rd with
  | Some v =>
      let w := Codec.packField v (setter_field x) (setter_val x) in
      snd rd ++ [write_txn d REG_CONFIG w (write_status bus (h ++ snd rd) d REG_CONFIG w)]
  | None => snd rd
  end.

(** ** Vocabulary for the properties of the remaining code *)

(** What a setter stores for an argument [v] of any size: the
    mask-and-shift setters keep the low bits of [v], the polarity setter
    only asks whether [v] is zero. *)
Definition field_norm (f : Codec.Field) (v : Z) : Z :=
  match f with
  | Codec.FPolarity => if v =? 0 then 0 else 1
  | _ => v mod 2 ^ Codec.field_width f
  end.

(** The getter of each configuration field. *)
Definition get_field (bus : Bus) (f : Codec.Field) : Z -> M (bool * Z) :=
  match f with
  | Codec.FMode => getMode bus
  | Codec.FConvRate => getConversionRate bus
  | Codec.FAveraging => getAveraging bus
  | Codec.FThermAlert => getThermAlertMode bus
  | Codec.FPolarity => getAlertPolarity bus
  end.

(** The register each getter reads. *)
Definition getter_reg (g : Getter) : Z :=
  match g with
  | GReadRawTemperature | GReadTemperatureC | GReadTemperatureF => REG_TEMP
  | GReadConfig | GGetConversionRate | GGetAveraging | GGetMode
  | GGetThermAlertMode | GGetAlertPolarity => REG_CONFIG
  | GGetHighLimit => REG_T_HIGH
  | GGetLowLimit => REG_T_LOW
  | GGetOffset => REG_TEMP_OFFSET
  | GReadEEPROM reg => reg
  | GGetDeviceID => REG_DEVICE_ID
  end.

(** A getter that refuses its argument before touching the bus. *)
Definition getter_refused (g : Getter) : bool :=
  match g with
  | GReadEEPROM reg => not_eeprom reg
  | _ => false
  end.

(** The three registers in temperature format, with their setter and
    getter. *)
Inductive TempReg : Type := THigh | TLow | TOffset.

Definition temp_reg (t : TempReg) : Z :=
  match t with
  | THigh => REG_T_HIGH
  | TLow => REG_T_LOW
  | TOffset => REG_TEMP_OFFSET
  end.

Definition set_temp (bus : Bus) (t : TempReg) : float32 -> option (M bool) :=
  match t with
  | THigh => setHighLimit bus
  | TLow => setLowLimit bus
  | TOffset => setOffset bus
  end.

Definition get_temp (bus : Bus) (t : TempReg) : float32 -> M (bool * float32) :=
  match t with
  | THigh => getHighLimit bus
  | TLow => getLowLimit bus
  | TOffset => getOffset bus
  end.

(** The content of register [r] of the register-file device that the
    facade of state [s] talks to, after everything logged in [s]. *)
Definition reg_of (s : State) (r : Z) : Z :=
  cells (sim_image (log s) (i2c (self s)) (address (self s))) r.

(** ** The sketch [One_Shot_Read.ino]

    The sketch owns the global [TMP11x_7Semi tmp(Wire)] and prints on
    the serial console. What is printed is kept as a list of the
    [Serial] calls made. *)

Inductive SerialOp : Type :=
| SBegin (baud : Z)
| SPrint (text : String.string)
| SPrintFloat (x : float32) (digits : Z)
| SPrintln (text : String.string).

Record Sketch : Type := mkSketch {
  tmp : State;
  serial : list SerialOp
}.

(** How [setup] ends: it returns, or it stays in
    [while (1) delay(100);] for ever. *)
Inductive Outcome : Type := Returns | Hangs.

(** The default arguments of [begin]: [sda = 0xFF], [scl = 0xFF],
    [i2cClockSpeed = 400000]. *)
Definition begin_default (bus : Bus) (esp : bool) (i2cAddress : Z) : M bool :=
  begin bus esp i2cAddress 0xFF 0xFF 400000.

(** [setup()]; the state returned with [Hangs] is the one in which the
    endless wait is entered. The statuses of the three setters are not
    looked at. *)
Definition one_shot_setup (bus : Bus) (esp : bool) (sk : Sketch) : Outcome * Sketch :=
  let out := serial sk ++ [SBegin 115200] in
  let (ok, t1) := begin_default bus esp 0x49 (tmp sk) in
  if negb ok then
    (Hangs, mkSketch t1 (out ++ [SPrintln "TMP11x not found!"%string]))
  else
    let (_, t2) := setConversionRate bus CONV_125MS t1 in
    let (_, t3) := setAveraging bus AVG_NONE t2 in
    let (_, t4) := setMode bus SHUTDOWN t3 in
    (Returns, mkSketch t4 (out ++ [SPrintln "One-shot mode demo ready"%string])).

(** [loop()]: trigger a conversion, wait 30, read and print, shut down,
    wait 2000. *)
Definition one_shot_loop (bus : Bus) (sk : Sketch) : Sketch :=
  let tC := S754_zero false in
  let (_, t1) := setMode bus ONE_SHOT (tmp sk) in
  let (_, t2) := delay 30 t1 in
  let (r, t3) := readTemperatureC bus tC t2 in
  let (ok, tC) := r in
  let out :=
    if ok then
      serial sk ++ [SPrint "One-shot Temp: "%string; SPrintFloat tC 4; SPrintln " C"%string]
    else
      serial sk ++ [SPrintln "One-shot read failed"%string] in
  let (_, t4) := setMode bus SHUTDOWN t3 in
  let (_, t5) := delay 2000 t4 in
  mkSketch t5 out.

(** [n] passes through [loop()]. *)
Fixpoint one_shot_loops (bus : Bus) (n : nat) (sk : Sketch) : Sketch :=
  match n with
  | O => sk
  | S k => one_shot_loops bus k (one_shot_loop bus sk)
  end.

(** A state in which the register-file device behind port 0, address
    0x49 holds the TMP117 identity 0x0117 in register 0x0F. *)
Definition s_tmp117 : State :=
  mkState (mkTMP11x 0%nat 0) (fun _ => mkTwoWire 0 [] [])
          [EvTransmit 0%nat 0x49 [0x0F; 0x01; 0x17] true 0].

(** * Properties *)

(** ** Bit-level facts *)


Lemma u16_small z : 0 <= z < 2 ^ 16 -> u16 z = z.
Proof. intros H. unfold u16. now apply Z.mod_small. Qed.

Lemma u8_small z : 0 <= z < 2 ^ 8 -> u8 z = z.
Proof. intros H. unfold u8. now apply Z.mod_small. Qed.

Lemma u16_range z : 0 <= u16 z < 2 ^ 16.
Proof. unfold u16. apply Z.mod_pos_bound. reflexivity. Qed.

Lemma u16_testbit z i : Z.testbit (u16 z) i = (i <? 16) && Z.testbit z i.
Proof. unfold u16. apply Z.testbit_mod_pow2. lia. Qed.

(** A 16-bit value has no bit set at position 16 or above. *)
Lemma testbit_high16 z i : 0 <= z < 2 ^ 16 -> 16 <= i -> Z.testbit z i = false.
Proof.
  intros Hz Hi. rewrite <- (u16_small z Hz), u16_testbit.
  destruct (Z.ltb_spec i 16); [lia | reflexivity].
Qed.

(** A value below [2^w] is its own low [w] bits. *)
Lemma land_ones_small v w : 0 <= w -> 0 <= v < 2 ^ w -> Z.land v (Z.ones w) = v.
Proof. intros Hw Hv. rewrite Z.land_ones by lia. now apply Z.mod_small. Qed.

Lemma rmw_testbit s w cfg v i :
  0 <= s -> 0 <= w -> s + w <= 16 -> 0 <= i ->
  Z.testbit (rmw s w cfg v) i =
  (i <? 16) && (if (s <=? i) && (i <? s + w) then Z.testbit v (i - s)
                else Z.testbit cfg i).
Proof.
  intros Hs Hw Hsw Hi. unfold rmw.
  rewrite u16_testbit, Z.lor_spec, u16_testbit, Z.land_spec.
  rewrite Z.lnot_spec by lia.
  rewrite !Z.shiftl_spec by lia.
  rewrite Z.land_spec.
  destruct (Z.leb_spec s i), (Z.ltb_spec i (s + w)), (Z.ltb_spec i 16);
    cbn [andb orb negb];
    rewrite ?Z.testbit_ones_nonneg by lia;
    rewrite ?(Z.testbit_neg_r _ (i - s)) by lia;
    repeat match goal with
           | |- context [?a <? ?b] => destruct (Z.ltb_spec a b); try lia
           end;
    cbn [andb orb negb];
    rewrite ?andb_true_r, ?andb_false_r, ?orb_false_r, ?orb_false_l;
    try reflexivity; try lia.
Qed.

(** Each mask-and-shift setter is the generic read-modify-write at its
    field's position. *)
Lemma packField_rmw cfg f v :
  f <> Codec.FPolarity -> 0 <= v < 2 ^ 16 ->
  Codec.packField cfg f v = rmw (Codec.field_lsb f) (Codec.field_width f) cfg v.
Proof.
  intros Hf Hv. destruct f; try congruence; try reflexivity.
  cbn [Codec.packField Codec.field_lsb Codec.field_width].
  unfold Codec.packMode. rewrite (u16_small v Hv). reflexivity.
Qed.

Lemma unpackField_get cfg f :
  0 <= cfg ->
  Codec.unpackField cfg f =
  Z.land (Z.shiftr cfg (Codec.field_lsb f)) (Z.ones (Codec.field_width f)).
Proof.
  intros Hc.
  assert (H : forall s w, 0 <= s -> 0 <= w <= 8 ->
            u8 (Z.land (Z.shiftr cfg s) (Z.ones w)) = Z.land (Z.shiftr cfg s) (Z.ones w)).
  { intros s w Hs Hw. apply u8_small. rewrite Z.land_ones by lia.
    assert (0 < 2 ^ w) by (apply Z.pow_pos_nonneg; lia).
    pose proof (Z.mod_pos_bound (Z.shiftr cfg s) (2 ^ w) H) as H0.
    assert (2 ^ w <= 2 ^ 8) by (apply Z.pow_le_mono_r; lia).
    split; [tauto | eapply Z.lt_le_trans; [apply H0 | assumption]]. }
  destruct f; cbn [Codec.unpackField Codec.field_lsb Codec.field_width];
    [ unfold Codec.unpackMode | unfold Codec.unpackConversionRate
    | unfold Codec.unpackAveraging | unfold Codec.unpackThermAlert
    | unfold Codec.unpackPolarity ];
    match goal with
    | |- u8 (Z.land (Z.shiftr _ ?s) ?m) = _ =>
        match goal with
        | |- _ = Z.land _ (Z.ones ?w) => change m with (Z.ones w); apply (H s w); lia
        end
    end.
Qed.

(** The polarity setter sets or clears bit 3. *)
Lemma packPolarity_testbit cfg v i :
  0 <= i ->
  Z.testbit (Codec.packPolarity cfg v) i =
  (i <? 16) && (if i =? 3 then negb (v =? 0) else Z.testbit cfg i).
Proof.
  intros Hi. unfold Codec.packPolarity.
  change (Z.shiftl 1 3) with (2 ^ 3).
  destruct (v =? 0); rewrite u16_testbit; f_equal.
  - rewrite Z.land_spec, Z.lnot_spec, Z.pow2_bits_eqb by lia.
    rewrite (Z.eqb_sym 3 i). destruct (i =? 3); cbn; [apply andb_false_r | apply andb_true_r].
  - rewrite Z.lor_spec, Z.pow2_bits_eqb by lia.
    rewrite (Z.eqb_sym 3 i). destruct (i =? 3); cbn; [apply orb_true_r | apply orb_false_r].
Qed.

Lemma packField_testbit cfg f v i :
  0 <= v < 2 ^ Codec.field_width f -> 0 <= i ->
  Z.testbit (Codec.packField cfg f v) i =
  (i <? 16) && (if Codec.in_span f i then Z.testbit v (i - Codec.field_lsb f)
                else Z.testbit cfg i).
Proof.
  intros Hv Hi.
  assert (Hw : 2 ^ Codec.field_width f <= 2 ^ 16)
    by (apply Z.pow_le_mono_r; destruct f; cbn; lia).
  destruct (Codec.Field_eq_dec f Codec.FPolarity) as [-> | Hf].
  - cbn [Codec.packField]. rewrite packPolarity_testbit by lia.
    unfold Codec.in_span. cbn [Codec.field_lsb Codec.field_width] in *.
    f_equal.
    destruct (Z.eqb_spec i 3) as [-> | Hne].
    + cbn. assert (v = 0 \/ v = 1) as [-> | ->] by lia; reflexivity.
    + destruct (Z.leb_spec 3 i), (Z.ltb_spec i (3 + 1)); cbn; try reflexivity; lia.
  - rewrite packField_rmw by (auto; lia).
    rewrite rmw_testbit by (destruct f; cbn; lia). reflexivity.
Qed.

Lemma packField_frame cfg f v i :
  0 <= cfg < 2 ^ 16 -> 0 <= v < 2 ^ Codec.field_width f -> 0 <= i ->
  Codec.in_span f i = false ->
  Z.testbit (Codec.packField cfg f v) i = Z.testbit cfg i.
Proof.
  intros Hc Hv Hi Hout. rewrite packField_testbit by lia. rewrite Hout.
  destruct (Z.ltb_spec i 16); [reflexivity|].
  cbn. symmetry. apply testbit_high16; lia.
Qed.

Lemma packField_range cfg f v : 0 <= Codec.packField cfg f v < 2 ^ 16.
Proof.
  destruct f; cbn [Codec.packField];
    [ unfold Codec.packMode | unfold Codec.packConversionRate
    | unfold Codec.packAveraging | unfold Codec.packThermAlert
    | unfold Codec.packPolarity; destruct (v =? 0) ];
    apply u16_range.
Qed.

(** C1. For every 16-bit configuration word, every field (mode 11:10,
    conversion rate 9:7, averaging 6:5, therm/alert 4, polarity 3) and
    every value that fits the field's width, the getter's extraction
    applied to the setter's result gives the value back, and every bit
    outside the field's span is the bit of the original word. *)
Theorem pack_unpack_roundtrip :
  forall (cfg : Z) (f : Codec.Field) (v : Z),
    0 <= cfg < 2 ^ 16 ->
    0 <= v < 2 ^ Codec.field_width f ->
    Codec.unpackField (Codec.packField cfg f v) f = v /\
    (forall i, 0 <= i -> Codec.in_span f i = false ->
               Z.testbit (Codec.packField cfg f v) i = Z.testbit cfg i).
Proof.
  intros cfg f v Hc Hv.
  assert (Hl : 0 <= Codec.field_lsb f) by (destruct f; cbn; lia).
  assert (Hw : 0 <= Codec.field_width f) by (destruct f; cbn; lia).
  assert (Hs : Codec.field_lsb f + Codec.field_width f <= 16) by (destruct f; cbn; lia).
  split.
  - rewrite unpackField_get.
    + apply Z.bits_inj'. intros i Hi.
      rewrite Z.land_spec, Z.shiftr_spec, Z.testbit_ones_nonneg by lia.
      rewrite packField_testbit by lia.
      unfold Codec.in_span.
      destruct (Z.ltb_spec i (Codec.field_width f)).
      * destruct (Z.ltb_spec (i + Codec.field_lsb f) 16); [|lia].
        destruct (Z.leb_spec (Codec.field_lsb f) (i + Codec.field_lsb f)); [|lia].
        destruct (Z.ltb_spec (i + Codec.field_lsb f)
                             (Codec.field_lsb f + Codec.field_width f)); [|lia].
        cbn. rewrite andb_true_r. f_equal. lia.
      * rewrite andb_false_r. symmetry.
        rewrite <- (land_ones_small v _ Hw Hv), Z.land_spec.
        rewrite Z.testbit_ones_nonneg by lia.
        destruct (Z.ltb_spec i (Codec.field_width f)); [lia|]. apply andb_false_r.
    + apply packField_range.
  - intros i Hi Hout. now apply packField_frame.
Qed.

(** The round trip at the word [0xFFFF], conversion-rate field, value 5. *)
Lemma pack_unpack_roundtrip_witness :
  Codec.unpackField (Codec.packField 0xFFFF Codec.FConvRate 5) Codec.FConvRate = 5 /\
  (forall i, 0 <= i -> Codec.in_span Codec.FConvRate i = false ->
             Z.testbit (Codec.packField 0xFFFF Codec.FConvRate 5) i = Z.testbit 0xFFFF i).
Proof.
  apply (pack_unpack_roundtrip 0xFFFF Codec.FConvRate 5); cbn; lia.
Defined.

(** ** The register primitives, in terms of the log *)

Lemma upd_same f p w : upd f p w p = w.
Proof. unfold upd. now rewrite Nat.eqb_refl. Qed.

Ltac run_wire :=
  repeat (cbv beta iota zeta delta
            [bind this ret delay emit history get_wire set_wire upd negb andb
             Wire_begin Wire_setClock Wire_beginTransmission Wire_write
             Wire_endTransmission Wire_requestFrom Wire_read];
          cbn [self wires log fst snd txAddress txBuffer rxBuffer app];
          rewrite ?Nat.eqb_refl).

(** [writeReg] is one transmission of three bytes with a stop; its
    result is whether the bus reported status 0. *)
Lemma writeReg_run bus reg value s :
  exists s',
    writeReg bus reg value s
    = (write_status bus (log s) (self s) reg value =? 0, s') /\
    self s' = self s /\
    log s' = log s ++ [write_txn (self s) reg value
                         (write_status bus (log s) (self s) reg value)].
Proof.
  unfold writeReg. run_wire.
  eexists. split; [reflexivity|]. split; reflexivity.
Qed.

Lemma u8_range z : 0 <= u8 z < 2 ^ 8.
Proof. unfold u8. apply Z.mod_pos_bound. reflexivity. Qed.

(** Two bytes joined high byte first. *)
Lemma lor_bytes hi lo :
  0 <= hi < 2 ^ 8 -> 0 <= lo < 2 ^ 8 ->
  Z.lor (Z.shiftl hi 8) lo = hi * 256 + lo.
Proof.
  intros Hh Hl.
  rewrite Z.shiftl_mul_pow2 by lia.
  rewrite Z.or_to_plus; [reflexivity|].
  apply Z.bits_inj'. intros i Hi.
  rewrite Z.land_spec, Z.bits_0.
  destruct (Z.ltb_spec i 8).
  - rewrite Z.mul_pow2_bits_low by lia. reflexivity.
  - rewrite (Z.bits_above_log2 lo i); [apply andb_false_r | lia |].
    destruct (Z.eq_dec lo 0) as [-> | Hz]; [cbn; lia|].
    apply Z.log2_lt_pow2; [lia|].
    apply Z.lt_le_trans with (2 ^ 8); [lia|]. apply Z.pow_le_mono_r; lia.
Qed.

Lemma join_bytes hi lo :
  0 <= hi < 2 ^ 8 -> 0 <= lo < 2 ^ 8 ->
  u16 (Z.lor (Z.shiftl (u16 hi) 8) lo) = hi * 256 + lo.
Proof.
  intros Hh Hl.
  rewrite (u16_small hi) by lia.
  rewrite lor_bytes by assumption.
  apply u16_small. lia.
Qed.

Lemma fetched_bytes bus h d hi lo :
  fetched bus h d = [hi; lo] -> 0 <= hi < 2 ^ 8 /\ 0 <= lo < 2 ^ 8.
Proof.
  unfold fetched. intros H.
  destruct (map u8 (reply bus h (i2c d) (address d) 2)) as [|a [|b l]] eqn:E;
    cbn in H; try discriminate.
  injection H as <- <-.
  destruct (reply bus h (i2c d) (address d) 2) as [|x [|y r]]; cbn in E; try discriminate.
  injection E as <- <- _. split; apply u8_range.
Qed.

(** [readReg] sends the register pointer without a stop and, when that
    is acknowledged, requests two bytes; it delivers a value only when
    both steps succeed, and leaves the output parameter alone otherwise. *)
Lemma readReg_run bus reg value s :
  exists s',
    readReg bus reg value s
    = (match fst (read_outcome bus (log s) (self s) reg) with
       | Some v => (true, v)
       | None => (false, value)
       end, s') /\
    self s' = self s /\
    log s' = log s ++ snd (read_outcome bus (log s) (self s) reg).
Proof.
  unfold readReg, read_outcome, pointer_status, pointer_txn, fetch_txn.
  run_wire.
  destruct (ack bus (log s) (i2c (self s)) (address (self s)) [u8 reg] false =? 0);
    cbn [negb]; run_wire.
  - change (Z.to_nat 2) with 2%nat.
    fold (fetched bus (log s ++ [EvTransmit (i2c (self s)) (address (self s)) [u8 reg] false
            (ack bus (log s) (i2c (self s)) (address (self s)) [u8 reg] false)]) (self s)).
    remember (fetched bus _ (self s)) as got eqn:Hgot.
    assert (Hb : forall hi lo, got = [hi; lo] -> 0 <= hi < 2 ^ 8 /\ 0 <= lo < 2 ^ 8)
      by (intros hi lo E; rewrite Hgot in E; exact (fetched_bytes _ _ _ _ _ E)).
    assert (Hlen : (length got <= 2)%nat) by (rewrite Hgot; apply firstn_le_length).
    clear Hgot.
    destruct got as [|hi [|lo [|x r]]]; cbn [length] in Hlen; try lia;
      cbn [length Z.of_nat Pos.of_succ_nat Pos.succ Z.eqb Pos.eqb negb]; run_wire.
    + eexists. repeat split; rewrite <- ?app_assoc; reflexivity.
    + eexists. repeat split; rewrite <- ?app_assoc; reflexivity.
    + destruct (Hb hi lo eq_refl) as [Hh Hl].
      rewrite (join_bytes hi lo Hh Hl).
      eexists. repeat split; rewrite <- ?app_assoc; reflexivity.
  - eexists. repeat split; reflexivity.
Qed.

(** A register read adds the pointer transmission and, only when that
    was acknowledged, one request: never more. *)
Lemma read_outcome_shape bus h d reg :
  exists got,
    snd (read_outcome bus h d reg)
    = pointer_txn d reg (pointer_status bus h d reg)
      :: (if pointer_status bus h d reg =? 0 then [fetch_txn d got] else []).
Proof.
  unfold read_outcome.
  destruct (pointer_status bus h d reg =? 0); cbn [negb].
  - exists (fetched bus (h ++ [pointer_txn d reg (pointer_status bus h d reg)]) d).
    cbv zeta. destruct (fetched _ _ _) as [|hi [|lo [|x r]]]; reflexivity.
  - exists []. reflexivity.
Qed.

Ltac step_read :=
  match goal with
  | |- context [readReg ?b ?r ?v ?st] =>
      let s' := fresh "s'" in
      let E := fresh "E" in
      let Hs := fresh "Hself" in
      let Hl := fresh "Hlog" in
      destruct (readReg_run b r v st) as (s' & E & Hs & Hl);
      rewrite E; clear E;
      cbn [self wires log] in Hs, Hl |- *
  end.

Ltac step_write :=
  match goal with
  | |- context [writeReg ?b ?r ?v ?st] =>
      let s' := fresh "s'" in
      let E := fresh "E" in
      let Hs := fresh "Hself" in
      let Hl := fresh "Hlog" in
      destruct (writeReg_run b r v st) as (s' & E & Hs & Hl);
      rewrite E; clear E;
      cbn [self wires log] in Hs, Hl |- *
  end.

(** C2. [begin] returns success exactly when the identity read
    delivers a value and that value is 0x0117 or 0x1116; it stores the
    address, and after configuring the port it performs the events of a
    single register read of the identity register and nothing else. *)
Theorem begin_identity_check :
  forall (bus : Bus) (esp : bool) (s : State) (a sda scl hz : Z),
    let d := mkTMP11x (i2c (self s)) a in
    let h := log s ++ [EvBegin (i2c d) (begin_pins esp sda scl); EvSetClock (i2c d) hz] in
    let r := begin bus esp a sda scl hz s in
    (fst r = true <->
     exists id, fst (read_outcome bus h d REG_DEVICE_ID) = Some id /\
                (id = 0x0117 \/ id = 0x1116)) /\
    self (snd r) = d /\
    log (snd r) = h ++ snd (read_outcome bus h d REG_DEVICE_ID) /\
    exists got,
      snd (read_outcome bus h d REG_DEVICE_ID)
      = pointer_txn d REG_DEVICE_ID (pointer_status bus h d REG_DEVICE_ID)
        :: (if pointer_status bus h d REG_DEVICE_ID =? 0 then [fetch_txn d got] else []).
Proof.
  intros bus esp s a sda scl hz d h r.
  assert (Hr : exists s',
             r = (match fst (read_outcome bus h d REG_DEVICE_ID) with
                  | Some id => (id =? 0x0117) || (id =? 0x1116)
                  | None => false
                  end, s') /\ self s' = d /\
             log s' = h ++ snd (read_outcome bus h d REG_DEVICE_ID)).
  { subst r h d. unfold begin, getDeviceID, set_address, begin_pins.
    cbn [i2c address].
    destruct esp; cbn [andb];
      [destruct (negb (sda =? 0xFF) && negb (scl =? 0xFF))| ];
      run_wire; cbn [i2c address]; step_read;
      rewrite <- ?app_assoc in *; cbn [app] in *;
      match goal with
      | |- context [read_outcome ?b ?h ?d ?r] =>
          destruct (fst (read_outcome b h d r)) as [v|]
      end; cbn [negb]; run_wire;
      exists s'; (repeat split; try assumption);
      try (destruct ((v =? 279) || (v =? 4374)); reflexivity). }
  destruct Hr as (s' & -> & Hself & Hlog). cbn [fst snd].
  split; [|split; [assumption | split; [assumption | apply read_outcome_shape]]].
  destruct (fst (read_outcome bus h d REG_DEVICE_ID)) as [id|].
  - split.
    + intros H. exists id. split; [reflexivity|].
      apply orb_true_iff in H. destruct H as [H | H]; apply Z.eqb_eq in H; auto.
    + intros (id' & [= <-] & [-> | ->]); reflexivity.
  - split; [discriminate | intros (id' & [=] & _)].
Qed.

(** ** EEPROM sequencing *)

Lemma not_eeprom_false reg :
  reg = REG_EEPROM1 \/ reg = REG_EEPROM2 \/ reg = REG_EEPROM3 ->
  not_eeprom reg = false.
Proof. intros [-> | [-> | ->]]; reflexivity. Qed.

Lemma not_eeprom_true reg :
  reg <> REG_EEPROM1 -> reg <> REG_EEPROM2 -> reg <> REG_EEPROM3 ->
  not_eeprom reg = true.
Proof.
  intros H1 H2 H3. unfold not_eeprom.
  apply Z.eqb_neq in H1, H2, H3. now rewrite H1, H2, H3.
Qed.

(** The whole of [writeEEPROM] on a valid slot, by the statuses the bus
    gives to the three writes. *)
Lemma writeEEPROM_run bus s reg value :
  not_eeprom reg = false ->
  let d := self s in
  let st1 := write_status bus (log s) d REG_EEPROM_UL 0x8000 in
  let h1 := log s ++ [write_txn d REG_EEPROM_UL 0x8000 st1; EvDelay 2] in
  let st2 := write_status bus h1 d reg value in
  let h2 := h1 ++ [write_txn d reg value st2; EvDelay 10] in
  let st3 := write_status bus h2 d REG_EEPROM_UL 0x0000 in
  exists s',
    writeEEPROM bus reg value s = ((st1 =? 0) && (st2 =? 0), s') /\
    self s' = d /\
    log s' =
      if st1 =? 0 then
        if st2 =? 0 then
          h2 ++ write_txn d REG_EEPROM_UL 0x0000 st3
                :: (if st3 =? 0 then [EvDelay 2] else [])
        else h1 ++ [write_txn d reg value st2]
      else log s ++ [write_txn d REG_EEPROM_UL 0x8000 st1].
Proof.
  intros Hreg d st1 h1 st2 h2 st3.
  unfold writeEEPROM, unlockEEPROM, lockEEPROM. rewrite Hreg.
  cbv beta iota zeta delta [bind].
  destruct (writeReg_run bus REG_EEPROM_UL 0x8000 s) as (s1 & E & Hs1 & Hl1).
  change (self s) with d in E, Hs1, Hl1.
  change (write_status bus (log s) d REG_EEPROM_UL 0x8000) with st1 in E, Hl1.
  rewrite E; clear E.
  destruct (st1 =? 0); run_wire.
  2: { exists s1. repeat split; assumption. }
  rewrite Hs1, Hl1, <- app_assoc. cbn [app].
  change (log s ++ [write_txn d REG_EEPROM_UL 0x8000 st1; EvDelay 2]) with h1.
  destruct (writeReg_run bus reg value (mkState d (wires s1) h1))
    as (s2 & E & Hs2 & Hl2).
  cbn [self log] in E, Hs2, Hl2.
  change (write_status bus h1 d reg value) with st2 in E, Hl2.
  rewrite E; clear E.
  destruct (st2 =? 0); run_wire.
  2: { exists s2. repeat split; assumption. }
  rewrite Hs2, Hl2, <- app_assoc. cbn [app].
  change (h1 ++ [write_txn d reg value st2; EvDelay 10]) with h2.
  destruct (writeReg_run bus REG_EEPROM_UL 0x0000 (mkState d (wires s2) h2))
    as (s3 & E & Hs3 & Hl3).
  cbn [self log] in E, Hs3, Hl3.
  change (write_status bus h2 d REG_EEPROM_UL 0x0000) with st3 in E, Hl3.
  rewrite E; clear E.
  destruct (st3 =? 0); run_wire.
  - eexists. repeat split; cbn [self log]; [assumption|].
    rewrite Hl3, <- app_assoc. reflexivity.
  - exists s3. repeat split; assumption.
Qed.

(** C3 (as the code has it). On a valid scratch slot [writeEEPROM]
    writes the unlock sentinel 0x8000 to the lock-control register,
    waits 2, writes the value to the slot, waits 10, writes 0x0000 to
    the lock-control register and, when that last write is
    acknowledged, waits 2 once more. A refused unlock write or a
    refused data write ends the sequence there and then, with failure
    as the result. *)
Theorem writeEEPROM_sequence :
  forall (bus : Bus) (s : State) (reg value : Z),
    reg = REG_EEPROM1 \/ reg = REG_EEPROM2 \/ reg = REG_EEPROM3 ->
    let d := self s in
    let st1 := write_status bus (log s) d REG_EEPROM_UL 0x8000 in
    let h1 := log s ++ [write_txn d REG_EEPROM_UL 0x8000 st1; EvDelay 2] in
    let st2 := write_status bus h1 d reg value in
    let h2 := h1 ++ [write_txn d reg value st2; EvDelay 10] in
    let st3 := write_status bus h2 d REG_EEPROM_UL 0x0000 in
    let r := writeEEPROM bus reg value s in
    (st1 <> 0 ->
     fst r = false /\
     log (snd r) = log s ++ [write_txn d REG_EEPROM_UL 0x8000 st1]) /\
    (st1 = 0 -> st2 <> 0 ->
     fst r = false /\
     log (snd r) = log s ++ [write_txn d REG_EEPROM_UL 0x8000 0; EvDelay 2;
                             write_txn d reg value st2]) /\
    (st1 = 0 -> st2 = 0 ->
     log (snd r) = log s ++ [write_txn d REG_EEPROM_UL 0x8000 0; EvDelay 2;
                             write_txn d reg value 0; EvDelay 10;
                             write_txn d REG_EEPROM_UL 0x0000 st3]
                         ++ (if st3 =? 0 then [EvDelay 2] else [])).
Proof.
  intros bus s reg value Hreg d st1 h1 st2 h2 st3 r.
  destruct (writeEEPROM_run bus s reg value (not_eeprom_false reg Hreg))
    as (s' & E & _ & Hlog).
  fold d st1 h1 st2 h2 st3 in E, Hlog. subst r. rewrite E. cbn [fst snd].
  rewrite Hlog. clear E Hlog.
  split; [|split].
  - intros H1. apply Z.eqb_neq in H1. rewrite H1. split; reflexivity.
  - intros H1 H2. apply Z.eqb_neq in H2.
    assert (E1 : (st1 =? 0) = true) by (now apply Z.eqb_eq).
    rewrite E1, H2. split; [reflexivity|].
    subst h1. rewrite H1, <- app_assoc. reflexivity.
  - intros H1 H2.
    assert (E1 : (st1 =? 0) = true) by (now apply Z.eqb_eq).
    assert (E2 : (st2 =? 0) = true) by (now apply Z.eqb_eq).
    rewrite E1, E2.
    subst h2 h1. rewrite H1, H2, <- !app_assoc. reflexivity.
Qed.

(** The sequence on the register-file device: six events, the last one
    the wait that follows the lock write. *)
Lemma writeEEPROM_sequence_witness :
  log (snd (writeEEPROM sim_bus REG_EEPROM1 0xBEEF s0))
  = [write_txn (self s0) REG_EEPROM_UL 0x8000 0; EvDelay 2;
     write_txn (self s0) REG_EEPROM1 0xBEEF 0; EvDelay 10;
     write_txn (self s0) REG_EEPROM_UL 0x0000 0; EvDelay 2].
Proof.
  destruct (writeEEPROM_sequence sim_bus s0 REG_EEPROM1 0xBEEF) as (_ & _ & H).
  - left. reflexivity.
  - rewrite H; reflexivity.
Defined.

(** C3 (as stated): with every write acknowledged the log is not the
    four-step list; a wait of 2 follows the lock write. *)
Lemma writeEEPROM_four_step_counterexample :
  log (snd (writeEEPROM sim_bus REG_EEPROM1 0xBEEF s0))
  <> log s0 ++ four_step_trace (self s0) REG_EEPROM1 0xBEEF.
Proof. vm_compute. discriminate. Qed.

(** Whatever the bus says to the lock write, [writeEEPROM] reports
    success once the unlock write and the data write were acknowledged. *)
Lemma writeEEPROM_ignores_lock_status bus s reg value :
  not_eeprom reg = false ->
  let d := self s in
  let h1 := log s ++ [write_txn d REG_EEPROM_UL 0x8000 0; EvDelay 2] in
  write_status bus (log s) d REG_EEPROM_UL 0x8000 = 0 ->
  write_status bus h1 d reg value = 0 ->
  fst (writeEEPROM bus reg value s) = true.
Proof.
  intros Hreg d h1 H1 H2.
  destruct (writeEEPROM_run bus s reg value Hreg) as (s' & E & _ & _).
  fold d in E. rewrite H1 in E. fold h1 in E. rewrite H2 in E.
  rewrite E. reflexivity.
Qed.

(** C4. On a bus that acknowledges the unlock write and the data write
    and refuses the lock write (status 4), [writeEEPROM] on slot 1
    returns success: the slot write stays (nothing follows the refused
    lock write), and the refusal does not reach the caller. *)
Theorem writeEEPROM_lock_failure_unreported :
  fst (writeEEPROM lock_fail_bus REG_EEPROM1 0x1234 s0) = true /\
  log (snd (writeEEPROM lock_fail_bus REG_EEPROM1 0x1234 s0))
  = [write_txn (self s0) REG_EEPROM_UL 0x8000 0; EvDelay 2;
     write_txn (self s0) REG_EEPROM1 0x1234 0; EvDelay 10;
     write_txn (self s0) REG_EEPROM_UL 0x0000 4] /\
  fst (lockEEPROM lock_fail_bus s0) = false.
Proof. vm_compute. repeat split. Qed.

(** C5. A register that is none of the three scratch slots is refused
    by [writeEEPROM] and [readEEPROM] before anything happens: failure
    is returned and the state, log included, is the one before the
    call. On a scratch slot [readEEPROM] is [readReg] on that register:
    one pointer transmission and at most one request, no unlock. *)
Theorem eeprom_slot_check :
  forall (bus : Bus) (s : State) (reg value out : Z),
    (reg <> REG_EEPROM1 /\ reg <> REG_EEPROM2 /\ reg <> REG_EEPROM3 ->
     writeEEPROM bus reg value s = (false, s) /\
     readEEPROM bus reg out s = ((false, out), s)) /\
    (reg = REG_EEPROM1 \/ reg = REG_EEPROM2 \/ reg = REG_EEPROM3 ->
     readEEPROM bus reg out s = readReg bus reg out s /\
     exists got,
       log (snd (readEEPROM bus reg out s))
       = log s ++ pointer_txn (self s) reg (pointer_status bus (log s) (self s) reg)
                  :: (if pointer_status bus (log s) (self s) reg =? 0
                      then [fetch_txn (self s) got] else [])).
Proof.
  intros bus s reg value out. split.
  - intros (H1 & H2 & H3).
    unfold writeEEPROM, readEEPROM.
    rewrite (not_eeprom_true reg H1 H2 H3). split; reflexivity.
  - intros Hreg. unfold readEEPROM. rewrite (not_eeprom_false reg Hreg).
    split; [reflexivity|].
    destruct (readReg_run bus reg out s) as (s' & E & _ & Hlog).
    rewrite E. cbn [snd]. rewrite Hlog.
    destruct (read_outcome_shape bus (log s) (self s) reg) as (got & ->).
    exists got. reflexivity.
Qed.

(** The offset register (0x07) is refused; slot 1 (0x05) is read. *)
Lemma eeprom_slot_check_witness :
  (writeEEPROM sim_bus REG_TEMP_OFFSET 0x1234 s0 = (false, s0) /\
   readEEPROM sim_bus REG_TEMP_OFFSET 7 s0 = ((false, 7), s0)) /\
  readEEPROM sim_bus REG_EEPROM1 7 s0 = readReg sim_bus REG_EEPROM1 7 s0.
Proof.
  split.
  - apply (eeprom_slot_check sim_bus s0 REG_TEMP_OFFSET 0x1234 7).
    repeat split; discriminate.
  - apply (eeprom_slot_check sim_bus s0 REG_EEPROM1 0x1234 7).
    left. reflexivity.
Defined.

(** ** Temperature codec *)

Lemma all_bits_spec k :
  forall p P, all_bits k p P = true ->
              forall z, p * 2 ^ Z.of_nat k <= z < (p + 1) * 2 ^ Z.of_nat k -> P z = true.
Proof.
  induction k as [|k IH]; intros p P H z Hz.
  - cbn in Hz. replace z with p by lia. exact H.
  - cbn [all_bits] in H. apply andb_true_iff in H. destruct H as [H0 H1].
    rewrite Nat2Z.inj_succ, Z.pow_succ_r in Hz by lia.
    assert (Hpos : 0 < 2 ^ Z.of_nat k) by (apply Z.pow_pos_nonneg; lia).
    destruct (Z.lt_ge_cases z ((2 * p + 1) * 2 ^ Z.of_nat k)).
    + apply (IH _ _ H0). nia.
    + apply (IH _ _ H1). nia.
Qed.

(** Every 16-bit pattern, taken as the code it encodes with offset
    [2^15], passes the check. *)
Lemma all_codes_roundtrip :
  all_bits 16 0 (fun u => code_roundtrip_ok (u - 2 ^ 15)) = true.
Proof. vm_cast_no_check (eq_refl true). Qed.

Lemma div_eucl_pair a b : Z.div_eucl a b = (a / b, a mod b).
Proof. unfold Z.div, Z.modulo. now destruct (Z.div_eucl a b). Qed.

(** Dividing a normal binary32 number by [0.0078125f] keeps the
    mantissa and adds 7 to the exponent: the quotient is exact. *)
Lemma f32_div_lsb_exact s m e :
  digits2_pos m = 24%positive -> - 149 <= e <= 97 ->
  f32_div (S754_finite s m e) f32_0_0078125 = S754_finite s m (e + 7).
Proof.
  intros Hd He.
  unfold f32_div, f32_0_0078125, SFdiv, SFdiv_core_binary.
  cbn [Zdigits2]. rewrite Hd.
  change (Z.pos (digits2_pos 8388608)) with 24.
  unfold fexp, emin.
  replace (Z.min (Z.max (24 + e - (24 + -30) - 24) (3 - 128 - 24)) (e - -30))
    with (e + 6) by lia.
  replace (e - -30 - (e + 6)) with 24 by lia.
  rewrite div_eucl_pair.
  rewrite Z.shiftl_mul_pow2 by lia.
  replace (Z.pos m * 2 ^ 24) with (Z.pos m~0 * 8388608) by lia.
  rewrite Z.div_mul, Z.mod_mul by lia.
  change (new_location 8388608 0) with loc_Exact.
  unfold binary_round_aux, shr_fexp.
  cbn [Zdigits2 digits2_pos]. rewrite Hd.
  change (Z.pos (Pos.succ 24)) with 25.
  unfold fexp, emin.
  replace (Z.max (25 + (e + 6) - 24) (3 - 128 - 24) - (e + 6)) with 1 by lia.
  cbn [shr shr_record_of_loc iter_pos shr_1 orb shr_m loc_of_shr_record round_nearest_even].
  cbn [Zdigits2]. rewrite Hd.
  replace (Z.max (24 + (e + 6 + 1) - 24) (3 - 128 - 24) - (e + 6 + 1)) with 0 by lia.
  cbn [shr shr_m].
  destruct (Z.leb_spec (e + 6 + 1) (128 - 24)); [|lia].
  replace (e + 6 + 1) with (e + 7) by lia.
  now destruct s.
Qed.

(** The conversion to an integer is truncation toward zero. *)
Lemma f32_trunc_truncates q c : f32_trunc q = Some c <-> truncates_to q c.
Proof.
  destruct q as [z | z | | s m e]; cbn [f32_trunc truncates_to].
  - split; [intros [= <-]; reflexivity | intros ->; reflexivity].
  - split; [discriminate | contradiction].
  - split; [discriminate | contradiction].
  - destruct (Z.leb_spec 0 e) as [He | He].
    + rewrite (Z.max_l 0 (- e)), (Z.max_r 0 e) by lia.
      assert (Hp : 0 < 2 ^ e) by (apply Z.pow_pos_nonneg; lia).
      set (X := Z.pos m * 2 ^ e). assert (0 < X) by (subst X; nia).
      change (2 ^ 0) with 1.
      split.
      * intros [= <-]. destruct s; lia.
      * intros (Hs & Hb). f_equal. destruct s; lia.
    + rewrite (Z.max_r 0 (- e)), (Z.max_l 0 e) by lia.
      assert (Hp : 0 < 2 ^ (- e)) by (apply Z.pow_pos_nonneg; lia).
      set (D := 2 ^ (- e)) in *. change (2 ^ 0) with 1.
      pose proof (Z.div_mod (Z.pos m) D ltac:(lia)) as Hdm.
      pose proof (Z.mod_pos_bound (Z.pos m) D Hp) as Hmod.
      assert (Hq : 0 <= Z.pos m / D) by (apply Z.div_pos; lia).
      set (Q := Z.pos m / D) in *. set (R := Z.pos m mod D) in *.
      split.
      * intros [= <-].
        destruct s; (split; [lia|]);
          [rewrite Z.abs_opp, Z.abs_eq by lia | rewrite Z.abs_eq by lia]; nia.
      * intros (Hs & Hb). f_equal.
        assert (Z.abs c = Q) by nia.
        destruct s; lia.
Qed.

(** [celsiusToRaw] is defined exactly where the truncated quotient is
    an [int16_t], and is that truncated quotient. *)
Lemma celsiusToRaw_truncates temp c :
  celsiusToRaw temp = Some c <->
  - 2 ^ 15 <= c < 2 ^ 15 /\ truncates_to (f32_div temp f32_0_0078125) c.
Proof.
  unfold celsiusToRaw, f32_to_int16.
  pose proof (f32_trunc_truncates (f32_div temp f32_0_0078125)) as Ht.
  destruct (f32_trunc (f32_div temp f32_0_0078125)) as [t|].
  - destruct ((- 2 ^ 15 <=? t) && (t <? 2 ^ 15)) eqn:Er.
    + apply andb_true_iff in Er. destruct Er as [E1 E2].
      apply Z.leb_le in E1. apply Z.ltb_lt in E2.
      split.
      * intros [= <-]. split; [lia | now apply Ht].
      * intros (Hr & Hc). apply Ht in Hc. now injection Hc as ->.
    + split; [discriminate|].
      intros (Hr & Hc). apply Ht in Hc. injection Hc as ->.
      apply andb_false_iff in Er.
      destruct Er as [E | E]; [apply Z.leb_gt in E | apply Z.ltb_ge in E]; lia.
  - split; [discriminate|]. intros (_ & Hc). apply Ht in Hc. discriminate.
Qed.

(** C6. For every [int16_t] code, [rawToCelsius] is the code times
    [2^-7] = 0.0078125 with no rounding, and [celsiusToRaw] of it is
    defined and is the code itself (so within one LSB). For every
    input, [celsiusToRaw] is the quotient by [0.0078125f] truncated
    toward zero, defined exactly when that is an [int16_t]; for every
    normal input up to exponent 97 the quotient is exact (same
    mantissa, exponent plus 7). So 1.5 LSB gives 1, -1.5 LSB gives -1,
    2.5 LSB gives 2, 0.5 LSB gives 0, 1.75 LSB gives 1 and -1.75 LSB
    gives -1. *)
Theorem celsius_raw_roundtrip :
  forall code : Z,
    - 2 ^ 15 <= code < 2 ^ 15 ->
    f32_is (rawToCelsius code) code (-7) = true /\
    celsiusToRaw (rawToCelsius code) = Some code /\
    (forall c, celsiusToRaw (rawToCelsius code) = Some c -> Z.abs (c - code) <= 1) /\
    celsiusToRaw (S754_finite false 12582912 (-30)) = Some 1 /\
    celsiusToRaw (S754_finite true 12582912 (-30)) = Some (-1) /\
    celsiusToRaw (S754_finite false 10485760 (-29)) = Some 2 /\
    celsiusToRaw (S754_finite false 8388608 (-31)) = Some 0 /\
    celsiusToRaw (S754_finite false 14680064 (-30)) = Some 1 /\
    celsiusToRaw (S754_finite true 14680064 (-30)) = Some (-1) /\
    (forall (temp : float32) (c : Z),
        celsiusToRaw temp = Some c <->
        - 2 ^ 15 <= c < 2 ^ 15 /\
        truncates_to (f32_div temp f32_0_0078125) c) /\
    (forall (s : bool) (m : positive) (e : Z),
        digits2_pos m = 24%positive -> - 149 <= e <= 97 ->
        f32_div (S754_finite s m e) f32_0_0078125 = S754_finite s m (e + 7)).
Proof.
  intros code Hc.
  pose proof (all_bits_spec 16 0 _ all_codes_roundtrip (code + 2 ^ 15)) as Hall.
  cbv beta in Hall. replace (code + 2 ^ 15 - 2 ^ 15) with code in Hall by lia.
  specialize (Hall ltac:(cbn; lia)).
  unfold code_roundtrip_ok in Hall. cbv zeta in Hall.
  apply andb_true_iff in Hall. destruct Hall as [Hex Hrt].
  destruct (celsiusToRaw (rawToCelsius code)) as [c|]; [|discriminate].
  apply Z.eqb_eq in Hrt. subst c.
  split; [assumption|]. split; [reflexivity|]. split.
  - intros c [= <-]. lia.
  - do 6 (split; [reflexivity|]). split.
    + intros temp c. apply celsiusToRaw_truncates.
    + intros s m e Hd He. now apply f32_div_lsb_exact.
Qed.

(** The coldest code, -32768 (-256 degrees). *)
Lemma celsius_raw_roundtrip_witness :
  celsiusToRaw (rawToCelsius (-32768)) = Some (-32768).
Proof.
  destruct (celsius_raw_roundtrip (-32768)) as (_ & H & _); [lia | exact H].
Defined.

(** ** Configuration setters *)

(** A successful register read is the acknowledged pointer transmission
    followed by a request that received exactly two bytes. *)
Lemma read_outcome_some bus h d reg v :
  fst (read_outcome bus h d reg) = Some v ->
  exists hi lo,
    v = hi * 256 + lo /\ 0 <= hi < 2 ^ 8 /\ 0 <= lo < 2 ^ 8 /\
    snd (read_outcome bus h d reg) = [pointer_txn d reg 0; fetch_txn d [hi; lo]].
Proof.
  unfold read_outcome.
  destruct (pointer_status bus h d reg =? 0) eqn:Est; cbn [negb]; [|discriminate].
  apply Z.eqb_eq in Est. rewrite Est.
  destruct (fetched bus (h ++ [pointer_txn d reg 0]) d) as [|hi [|lo [|x r]]] eqn:Eg;
    cbn [fst snd]; try discriminate.
  intros [= <-]. exists hi, lo.
  destruct (fetched_bytes _ _ _ _ _ Eg) as [Hhi Hlo].
  split; [reflexivity | split; [exact Hhi | split; [exact Hlo | reflexivity]]].
Qed.

Lemma setter_val_range x :
  0 <= setter_val x < 2 ^ Codec.field_width (setter_field x).
Proof. destruct x as [[]|[]|[]|[]|[]]; cbn; lia. Qed.

(** Every setter is: read the configuration register; stop on failure;
    otherwise write back the word with the setter's field replaced. *)
Lemma run_setter_unfold bus x :
  run_setter bus x =
  bind (readConfig bus uninit16)
       (fun r => let (ok, cfg) := r in
                 if negb ok then ret false
                 else writeConfig bus
                        (Codec.packField cfg (setter_field x) (setter_val x))).
Proof. destruct x; reflexivity. Qed.

(** C7. Each of [setMode], [setAveraging], [setConversionRate],
    [setAlertPolarity] and [setThermAlertMode] reads the configuration
    register once and, when that read delivers a word [v], writes the
    configuration register once; the word written agrees with [v] on
    every bit outside the setter's field. When the read fails nothing
    is written and the setter fails. *)
Theorem setter_read_modify_write :
  forall (bus : Bus) (s : State) (x : Setter),
    let d := self s in
    let r := run_setter bus x s in
    (forall v,
        fst (read_outcome bus (log s) d REG_CONFIG) = Some v ->
        exists hi lo w st,
          v = hi * 256 + lo /\
          log (snd r) = log s ++ [pointer_txn d REG_CONFIG 0;
                                  fetch_txn d [hi; lo];
                                  write_txn d REG_CONFIG w st] /\
          fst r = (st =? 0) /\
          0 <= w < 2 ^ 16 /\
          (forall i, 0 <= i -> Codec.in_span (setter_field x) i = false ->
                     Z.testbit w i = Z.testbit v i)) /\
    (fst (read_outcome bus (log s) d REG_CONFIG) = None ->
     fst r = false /\
     log (snd r) = log s ++ snd (read_outcome bus (log s) d REG_CONFIG)).
Proof.
  intros bus s x d r. subst r. rewrite run_setter_unfold.
  unfold readConfig, writeConfig. cbv beta iota zeta delta [bind].
  destruct (readReg_run bus REG_CONFIG uninit16 s) as (s1 & E & Hs1 & Hl1).
  rewrite E; clear E. fold d in Hs1, Hl1 |- *.
  split.
  - intros v Hv. rewrite Hv in *. cbv beta iota delta [negb].
    destruct (read_outcome_some _ _ _ _ _ Hv) as (hi & lo & Ev & Hhi & Hlo & Hev).
    rewrite Hev in Hl1.
    set (w := Codec.packField v (setter_field x) (setter_val x)).
    destruct (writeReg_run bus REG_CONFIG w s1) as (s2 & E & Hs2 & Hl2).
    rewrite E; clear E. cbn [fst snd].
    exists hi, lo, w, (write_status bus (log s1) (self s1) REG_CONFIG w).
    split; [assumption|]. split.
    + rewrite Hl2, Hl1, Hs1, <- app_assoc. reflexivity.
    + split; [reflexivity|]. split; [apply packField_range|].
      intros i Hi Hout. apply packField_frame; try assumption.
      * subst v. lia.
      * apply setter_val_range.
  - intros Hn. rewrite Hn in *. cbv beta iota delta [negb ret].
    cbn [fst snd]. split; [reflexivity | assumption].
Qed.

(** [setMode(ONE_SHOT)] on the register-file device, whose
    configuration register reads 0. *)
Lemma setter_read_modify_write_witness :
  exists hi lo w st,
    0 = hi * 256 + lo /\
    log (snd (run_setter sim_bus (SSetMode ONE_SHOT) s0))
    = log s0 ++ [pointer_txn (self s0) REG_CONFIG 0;
                 fetch_txn (self s0) [hi; lo];
                 write_txn (self s0) REG_CONFIG w st] /\
    fst (run_setter sim_bus (SSetMode ONE_SHOT) s0) = (st =? 0) /\
    0 <= w < 2 ^ 16 /\
    (forall i, 0 <= i -> Codec.in_span Codec.FMode i = false ->
               Z.testbit w i = Z.testbit 0 i).
Proof.
  apply (setter_read_modify_write sim_bus s0 (SSetMode ONE_SHOT)).
  reflexivity.
Defined.

(** ** Output parameters *)

Lemma readReg_failure_keeps bus reg value s :
  fst (fst (readReg bus reg value s)) = false ->
  snd (fst (readReg bus reg value s)) = value.
Proof.
  destruct (readReg_run bus reg value s) as (s' & E & _ & _). rewrite E.
  destruct (fst (read_outcome bus (log s) (self s) reg)); cbn [fst snd];
    [discriminate | reflexivity].
Qed.

(** Getters that read into a local first and assign afterwards. *)
Ltac via_local :=
  cbv beta iota zeta delta [bind];
  match goal with
  | |- context [readReg ?b ?r ?v ?st] =>
      destruct (readReg b r v st) as [[[] ?] ?]
  end;
  cbv beta iota zeta delta [bind negb ret]; cbn [fst snd];
  intros; solve [reflexivity | discriminate].

(** C8. When an operation with an output reference parameter returns
    failure, the parameter holds what it held before the call. *)
Theorem getter_failure_keeps_output :
  forall (bus : Bus) (g : Getter) (out : out_type g) (s : State),
    fst (fst (run_getter bus g out s)) = false ->
    snd (fst (run_getter bus g out s)) = out.
Proof.
  intros bus g out s.
  destruct g as [ | | | | | | | | | | | | reg | ]; cbn [run_getter out_type] in *;
    unfold readTemperatureF, readTemperatureC,
      readRawTemperature, getConversionRate, getAveraging, getMode,
      getHighLimit, getLowLimit, getOffset, getThermAlertMode, getAlertPolarity,
      getDeviceID, readConfig;
    try apply readReg_failure_keeps;
    try via_local.
  unfold readEEPROM. destruct (not_eeprom reg).
  - reflexivity.
  - apply readReg_failure_keeps.
Qed.

(** [readTemperatureC] with no device on the bus: the caller's 1.0
    stays in place. *)
Lemma getter_failure_keeps_output_witness :
  snd (fst (run_getter dead_bus GReadTemperatureC (f32_of_int 1) s0)) = f32_of_int 1.
Proof.
  apply (getter_failure_keeps_output dead_bus GReadTemperatureC (f32_of_int 1) s0).
  reflexivity.
Defined.

(** ** Byte order *)

Lemma hi_byte v : 0 <= v < 2 ^ 16 -> u8 (Z.shiftr v 8) = v / 256.
Proof.
  intros Hv. rewrite Z.shiftr_div_pow2 by lia. change (2 ^ 8) with 256.
  apply u8_small.
  split; [apply Z.div_pos; lia | apply Z.div_lt_upper_bound; lia].
Qed.

Lemma lo_byte v : u8 (Z.land v 0xFF) = v mod 256.
Proof.
  change 0xFF with (Z.ones 8). rewrite Z.land_ones by lia.
  change (2 ^ 8) with 256. apply u8_small.
  change (2 ^ 8) with 256. apply Z.mod_pos_bound. lia.
Qed.

Lemma write_bytes_big_endian reg v :
  0 <= v < 2 ^ 16 -> write_bytes reg v = [u8 reg; v / 256; v mod 256].
Proof. intros Hv. unfold write_bytes. now rewrite hi_byte, lo_byte. Qed.

(** The register-file device after an acknowledged register write
    followed by the pointer half of a read of the same register. *)
Lemma sim_image_write_then_point h d reg hi lo :
  let img := sim_image (h ++ [EvTransmit (i2c d) (address d) [reg; hi; lo] true 0;
                              EvTransmit (i2c d) (address d) [reg] false 0])
                       (i2c d) (address d) in
  pointer img = reg /\ cells img reg = hi * 256 + lo.
Proof.
  cbv zeta. unfold sim_image. rewrite fold_left_app.
  cbv beta iota delta [fold_left sim_step].
  rewrite !Nat.eqb_refl, !Z.eqb_refl.
  cbv beta iota delta [andb dev_write pointer cells].
  rewrite ?Nat.eqb_refl, ?Z.eqb_refl. cbv beta iota delta [andb].
  rewrite ?Z.eqb_refl. split; reflexivity.
Qed.

(** C9. A register travels high byte first: [writeReg] transmits the
    register number, then bits 15:8, then bits 7:0; [readReg] takes the
    first byte received as bits 15:8 and the second as bits 7:0. On a
    device that stores what is written and returns what is stored,
    reading a register after writing a 16-bit value to it delivers that
    value. *)
Theorem register_write_read_roundtrip :
  forall (s : State) (reg value out : Z),
    0 <= value < 2 ^ 16 ->
    let d := self s in
    (forall bus,
        log (snd (writeReg bus reg value s))
        = log s ++ [EvTransmit (i2c d) (address d)
                      [u8 reg; value / 256; value mod 256] true
                      (write_status bus (log s) d reg value)]) /\
    (forall bus hi lo,
        pointer_status bus (log s) d reg = 0 ->
        fetched bus (log s ++ [pointer_txn d reg 0]) d = [hi; lo] ->
        fst (readReg bus reg out s) = (true, Z.lor (Z.shiftl hi 8) lo)) /\
    let w := writeReg sim_bus reg value s in
    let r := readReg sim_bus reg out (snd w) in
    fst w = true /\
    fst r = (true, value) /\
    log (snd r) = log s ++ [write_txn d reg value 0; pointer_txn d reg 0;
                            fetch_txn d [value / 256; value mod 256]].
Proof.
  intros s reg value out Hv d. split; [|split].
  - intros bus.
    destruct (writeReg_run bus reg value s) as (s1 & E & _ & Hl). rewrite E.
    cbn [snd]. rewrite Hl. unfold write_txn.
    now rewrite write_bytes_big_endian.
  - intros bus hi lo Hst Hgot.
    destruct (readReg_run bus reg out s) as (s1 & E & _ & _). rewrite E.
    cbn [fst]. unfold read_outcome. fold d. rewrite Hst. cbn [Z.eqb negb].
    rewrite Hgot. cbn [fst].
    destruct (fetched_bytes _ _ _ _ _ Hgot) as [Hhi Hlo].
    now rewrite lor_bytes.
  - intros w r. subst w r.
    destruct (writeReg_run sim_bus reg value s) as (s1 & E1 & Hs1 & Hl1).
    rewrite E1. cbn [fst snd].
    destruct (readReg_run sim_bus reg out s1) as (s2 & E2 & Hs2 & Hl2).
    rewrite E2. cbn [fst snd]. rewrite Hl2, Hs1, Hl1. fold d.
    change (write_status sim_bus (log s) d reg value) with 0.
    assert (Hout : read_outcome sim_bus (log s ++ [write_txn d reg value 0]) d reg
                   = (Some value, [pointer_txn d reg 0;
                                   fetch_txn d [value / 256; value mod 256]])).
    { unfold read_outcome.
      change (pointer_status sim_bus (log s ++ [write_txn d reg value 0]) d reg) with 0.
      cbn [Z.eqb negb].
      assert (Hf : fetched sim_bus
                     ((log s ++ [write_txn d reg value 0]) ++ [pointer_txn d reg 0]) d
                   = [value / 256; value mod 256]).
      { unfold fetched, sim_bus. cbn [reply].
        rewrite <- app_assoc. cbn [app]. unfold write_txn, pointer_txn.
        rewrite write_bytes_big_endian by assumption.
        destruct (sim_image_write_then_point (log s) d (u8 reg)
                    (value / 256) (value mod 256)) as [Hp Hc].
        rewrite Hp, Hc.
        replace (value / 256 * 256 + value mod 256) with value
          by (rewrite (Z.div_mod value 256) at 1; lia).
        cbn [map firstn]. now rewrite hi_byte, lo_byte. }
      rewrite Hf. f_equal. f_equal.
      rewrite (Z.div_mod value 256) at 3; lia. }
    rewrite Hout. cbn [fst snd].
    split; [reflexivity|]. split; [reflexivity|].
    rewrite <- app_assoc. reflexivity.
Qed.

(** Writing 0xABCD to the high-limit register and reading it back. *)
Lemma register_write_read_roundtrip_witness :
  fst (readReg sim_bus REG_T_HIGH 0 (snd (writeReg sim_bus REG_T_HIGH 0xABCD s0)))
  = (true, 0xABCD).
Proof.
  apply (register_write_read_roundtrip s0 REG_T_HIGH 0xABCD 0). lia.
Defined.

(** ** The device-handle binding *)

Lemma stable_ret {A} (a : A) : stable (ret a).
Proof.
  intros s. split; [reflexivity|]. exists []. split; [|constructor].
  cbn. now rewrite app_nil_r.
Qed.

Lemma stable_bind {A B} (m : M A) (k : A -> M B) :
  stable m -> (forall a, stable (k a)) -> stable (bind m k).
Proof.
  intros Hm Hk s. unfold bind.
  destruct (Hm s) as (Hs1 & e1 & Hl1 & Ha1).
  destruct (m s) as [a s1]. cbn [snd] in *.
  destruct (Hk a s1) as (Hs2 & e2 & Hl2 & Ha2).
  rewrite Hs1 in *. split; [assumption|].
  exists (e1 ++ e2). split.
  - rewrite Hl2, Hl1. now rewrite app_assoc.
  - apply Forall_app. split; assumption.
Qed.

Lemma stable_delay ms : stable (delay ms).
Proof.
  intros s. split; [reflexivity|]. exists [EvDelay ms].
  split; [reflexivity|]. repeat constructor.
Qed.

Lemma stable_writeReg bus reg value : stable (writeReg bus reg value).
Proof.
  intros s. destruct (writeReg_run bus reg value s) as (s' & E & Hs & Hl).
  rewrite E. cbn [snd]. split; [assumption|].
  eexists. split; [exact Hl|]. repeat constructor.
Qed.

Lemma stable_readReg bus reg value : stable (readReg bus reg value).
Proof.
  intros s. destruct (readReg_run bus reg value s) as (s' & E & Hs & Hl).
  rewrite E. cbn [snd]. split; [assumption|].
  eexists. split; [exact Hl|].
  destruct (read_outcome_shape bus (log s) (self s) reg) as (got & ->).
  destruct (pointer_status bus (log s) (self s) reg =? 0); repeat constructor.
Qed.

Ltac stab :=
  repeat match goal with
         | |- stable (ret _) => apply stable_ret
         | |- stable (bind _ _) => apply stable_bind; [|intros ?]
         | |- stable (let (_, _) := ?r in _) => destruct r
         | |- stable (if ?b then _ else _) => destruct b
         | |- stable (readReg _ _ _) => apply stable_readReg
         | |- stable (writeReg _ _ _) => apply stable_writeReg
         | |- stable (delay _) => apply stable_delay
         end.

Lemma stable_getter bus g out : stable (run_getter bus g out).
Proof.
  destruct g; cbn [run_getter out_type] in *;
    unfold readTemperatureF, readTemperatureC, readRawTemperature,
      getConversionRate, getAveraging, getMode, getHighLimit, getLowLimit,
      getOffset, getThermAlertMode, getAlertPolarity, getDeviceID,
      readEEPROM, readConfig;
    stab.
Qed.

Lemma stable_setter bus x : stable (run_setter bus x).
Proof. rewrite run_setter_unfold. unfold readConfig, writeConfig. stab. Qed.

Lemma stable_writeEEPROM bus reg value : stable (writeEEPROM bus reg value).
Proof. unfold writeEEPROM, unlockEEPROM, lockEEPROM. stab. Qed.

(** One call other than [begin] leaves the facade's port and address
    as they were and talks to nothing else. *)
Lemma exec_stable bus esp c s r s' :
  is_begin c = false ->
  exec bus esp c s = Some (r, s') ->
  self s' = self s /\
  exists evs, log s' = log s ++ evs /\ Forall (addressed_to (self s)) evs.
Proof.
  intros Hc He.
  assert (Hw : forall reg v, stable (writeReg bus reg v)) by (intros; apply stable_writeReg).
  destruct c as [a0 sda scl hz | g out | x | config | | tempC | tempC | offsetC | reg value];
    try discriminate; cbn [exec] in He.
  - pose proof (stable_getter bus g out s) as H.
    destruct (run_getter bus g out s) as [q t]. injection He as _ <-. exact H.
  - pose proof (stable_setter bus x s) as H.
    destruct (run_setter bus x s). injection He as _ <-. exact H.
  - pose proof (Hw REG_CONFIG config s) as H. unfold writeConfig in He.
    destruct (writeReg bus REG_CONFIG config s). injection He as _ <-. exact H.
  - pose proof (Hw REG_CONFIG 0x8000 s) as H. unfold reset, writeConfig in He.
    destruct (writeReg bus REG_CONFIG 0x8000 s). injection He as _ <-. exact H.
  - unfold setHighLimit in He. destruct (celsiusToRaw tempC) as [raw|]; [|discriminate].
    cbn [option_map] in He. pose proof (Hw REG_T_HIGH (u16 raw) s) as H.
    destruct (writeReg bus REG_T_HIGH (u16 raw) s). injection He as _ <-. exact H.
  - unfold setLowLimit in He. destruct (celsiusToRaw tempC) as [raw|]; [|discriminate].
    cbn [option_map] in He. pose proof (Hw REG_T_LOW (u16 raw) s) as H.
    destruct (writeReg bus REG_T_LOW (u16 raw) s). injection He as _ <-. exact H.
  - unfold setOffset in He. destruct (celsiusToRaw offsetC) as [raw|]; [|discriminate].
    cbn [option_map] in He. pose proof (Hw REG_TEMP_OFFSET (u16 raw) s) as H.
    destruct (writeReg bus REG_TEMP_OFFSET (u16 raw) s). injection He as _ <-. exact H.
  - pose proof (stable_writeEEPROM bus reg value s) as H.
    destruct (writeEEPROM bus reg value s). injection He as _ <-. exact H.
Qed.

Lemma exec_all_stable bus esp cs :
  forall s s',
    forallb (fun c => negb (is_begin c)) cs = true ->
    exec_all bus esp cs s = Some s' ->
    self s' = self s /\
    exists evs, log s' = log s ++ evs /\ Forall (addressed_to (self s)) evs.
Proof.
  induction cs as [|c cs IH]; intros s s' Hnb He; cbn [exec_all forallb] in *.
  - injection He as <-. split; [reflexivity|]. exists [].
    split; [now rewrite app_nil_r | constructor].
  - apply andb_true_iff in Hnb. destruct Hnb as [Hc Hcs].
    apply negb_true_iff in Hc.
    destruct (exec bus esp c s) as [[r s1]|] eqn:E1; [|discriminate].
    destruct (exec_stable _ _ _ _ _ _ Hc E1) as (Hs1 & e1 & Hl1 & Ha1).
    destruct (IH s1 s' Hcs He) as (Hs2 & e2 & Hl2 & Ha2).
    rewrite Hs1 in *. split; [assumption|].
    exists (e1 ++ e2). split.
    + rewrite Hl2, Hl1. now rewrite app_assoc.
    + apply Forall_app. split; assumption.
Qed.

(** A sequence of calls with defined behaviour runs to the end. *)
Lemma exec_all_defined bus esp cs :
  forall s, forallb defined cs = true -> exists s', exec_all bus esp cs s = Some s'.
Proof.
  induction cs as [|c cs IH]; intros s Hd; cbn [exec_all forallb] in *.
  - now exists s.
  - apply andb_true_iff in Hd. destruct Hd as [Hc Hcs].
    assert (He : exists r s1, exec bus esp c s = Some (r, s1)).
    { destruct c as [a0 sda scl hz | g out | x | config | | tempC | tempC | offsetC | reg value];
        cbn [exec defined] in *;
        unfold setHighLimit, setLowLimit, setOffset;
        try match goal with
            | H : match celsiusToRaw ?t with _ => _ end = true |- _ =>
                destruct (celsiusToRaw t); [cbn [option_map] | discriminate]
            end;
        try match goal with
            | |- exists r s1, Some ?m = Some _ =>
                exists (fst m), (snd m); f_equal; apply surjective_pairing
            end.
      destruct (run_getter bus g out s) as [q t]. eexists; eexists; reflexivity. }
    destruct He as (r & s1 & ->). apply IH. assumption.
Qed.

(** What [begin] does to the facade and the log, whatever it returns. *)
Lemma begin_binds bus esp a sda scl hz s :
  let d := mkTMP11x (i2c (self s)) a in
  self (snd (begin bus esp a sda scl hz s)) = d /\
  exists evs, log (snd (begin bus esp a sda scl hz s)) = log s ++ evs /\
              Forall (addressed_to d) evs.
Proof.
  intros d.
  assert (Hread : stable (readReg bus REG_DEVICE_ID uninit16)) by apply stable_readReg.
  unfold begin, getDeviceID, set_address.
  cbv beta iota zeta delta [bind this]. cbn [self fst snd]. fold d.
  set (pre := if esp
              then if negb (sda =? 0xFF) && negb (scl =? 0xFF)
                   then Wire_begin (i2c d) (Some (sda, scl))
                   else Wire_begin (i2c d) None
              else Wire_begin (i2c d) None).
  assert (Hpre : exists pins, pre = Wire_begin (i2c d) pins).
  { subst pre. destruct esp; [destruct (negb (sda =? 0xFF) && negb (scl =? 0xFF))|];
      eexists; reflexivity. }
  destruct Hpre as (pins & ->).
  cbv beta iota zeta delta [Wire_begin Wire_setClock emit]. cbn [self wires log].
  match goal with
  | |- context [readReg ?b ?r ?v ?st] =>
      destruct (Hread st) as (Hs & evs & Hl & Ha);
      destruct (readReg b r v st) as [[ok id] s1]
  end.
  cbn [self log snd] in Hs, Hl, Ha.
  assert (Hfin : forall m : M bool,
             (m = ret true \/ m = ret false) ->
             self (snd (m s1)) = d /\
             exists evs0, log (snd (m s1)) = log s ++ evs0 /\ Forall (addressed_to d) evs0).
  { intros m [-> | ->]; cbn [ret snd]; (split; [assumption|]);
      exists ([EvBegin (i2c d) pins; EvSetClock (i2c d) hz] ++ evs);
      (split; [rewrite Hl, <- !app_assoc; reflexivity |]);
      apply Forall_app; (split; [repeat constructor | assumption]). }
  destruct ok; cbv beta iota delta [negb]; [|apply Hfin; auto].
  destruct ((id =? 0x0117) || (id =? 0x1116)); apply Hfin; auto.
Qed.

(** C10. [begin] stores the address it is given and leaves the bus
    reference alone; after it, no sequence of other public operations
    changes either member, and every bus transaction from [begin]'s
    identity read onward names the stored port and that address. *)
Theorem handle_binding_invariant :
  forall (bus : Bus) (esp : bool) (s : State) (a sda scl hz : Z)
         (cs : list Call) (s' : State),
    forallb (fun c => negb (is_begin c)) cs = true ->
    exec_all bus esp cs (snd (begin bus esp a sda scl hz s)) = Some s' ->
    let d := mkTMP11x (i2c (self s)) a in
    self s' = d /\
    exists evs, log s' = log s ++ evs /\ Forall (addressed_to d) evs.
Proof.
  intros bus esp s a sda scl hz cs s' Hnb He d.
  destruct (begin_binds bus esp a sda scl hz s) as (Hs0 & e0 & Hl0 & Ha0).
  destruct (exec_all_stable bus esp cs _ _ Hnb He) as (Hs1 & e1 & Hl1 & Ha1).
  fold d in Hs0, Ha0. rewrite Hs0 in *. split; [assumption|].
  exists (e0 ++ e1). split.
  - rewrite Hl1, Hl0. now rewrite app_assoc.
  - apply Forall_app. split; assumption.
Qed.

(** [begin(0x49)] on a fixed-pin build, then a mode change, a
    temperature read, an EEPROM write and a reset: the run completes and
    the facade is still bound to port 0, address 0x49. *)
Lemma handle_binding_invariant_witness :
  match
    exec_all sim_bus false
      [CSet (SSetMode SHUTDOWN); CGet GReadTemperatureC uninitf;
       CWriteEEPROM REG_EEPROM1 0x1234; CReset]
      (snd (begin sim_bus false 0x49 0xFF 0xFF 400000 s0))
  with
  | Some s' => self s' = mkTMP11x 0%nat 0x49
  | None => False
  end.
Proof.
  destruct (exec_all sim_bus false
              [CSet (SSetMode SHUTDOWN); CGet GReadTemperatureC uninitf;
               CWriteEEPROM REG_EEPROM1 0x1234; CReset]
              (snd (begin sim_bus false 0x49 0xFF 0xFF 400000 s0)))
    as [s'|] eqn:E.
  - apply (handle_binding_invariant sim_bus false s0 0x49 0xFF 0xFF 400000
             [CSet (SSetMode SHUTDOWN); CGet GReadTemperatureC uninitf;
              CWriteEEPROM REG_EEPROM1 0x1234; CReset] s');
      [reflexivity | exact E].
  - vm_compute in E. discriminate.
Defined.

(** * Further properties of the codec *)

Lemma field_width_small f : 0 <= Codec.field_width f <= 3.
Proof. destruct f; cbn; lia. Qed.

Lemma field_norm_range f v : 0 <= field_norm f v < 2 ^ Codec.field_width f.
Proof.
  destruct f; cbn [field_norm Codec.field_width];
    try (apply Z.mod_pos_bound; reflexivity).
  destruct (v =? 0); cbn; lia.
Qed.

(** A setter's result only depends on what it keeps of its argument. *)
Lemma packField_norm cfg f v :
  Codec.packField cfg f v = Codec.packField cfg f (field_norm f v).
Proof.
  destruct f; cbn [Codec.packField field_norm Codec.field_width].
  - unfold Codec.packMode. do 2 f_equal. f_equal.
    change 0x03 with (Z.ones 2). rewrite !Z.land_ones by lia.
    unfold u16. rewrite (Z.mod_small (v mod 2 ^ 2) (2 ^ 16)).
    + rewrite Z.mod_mod by lia.
      apply Z.mod_mod_divide. exists (2 ^ 14). reflexivity.
    + pose proof (Z.mod_pos_bound v (2 ^ 2)). lia.
  - unfold Codec.packConversionRate. do 2 f_equal. f_equal.
    change 0x07 with (Z.ones 3). rewrite !Z.land_ones by lia.
    now rewrite Z.mod_mod by lia.
  - unfold Codec.packAveraging. do 2 f_equal. f_equal.
    change 0x03 with (Z.ones 2). rewrite !Z.land_ones by lia.
    now rewrite Z.mod_mod by lia.
  - unfold Codec.packThermAlert. do 2 f_equal. f_equal.
    change 0x01 with (Z.ones 1). rewrite !Z.land_ones by lia.
    now rewrite Z.mod_mod by lia.
  - unfold Codec.packPolarity. destruct (v =? 0); reflexivity.
Qed.

(** The bits of a setter's result, for an argument of any size. *)
Lemma packField_bits cfg f v i :
  0 <= i ->
  Z.testbit (Codec.packField cfg f v) i =
  (i <? 16) && (if Codec.in_span f i
                then Z.testbit (field_norm f v) (i - Codec.field_lsb f)
                else Z.testbit cfg i).
Proof.
  intros Hi. rewrite packField_norm.
  apply packField_testbit; [apply field_norm_range | assumption].
Qed.

Lemma in_span_16 f i : Codec.in_span f i = true -> 0 <= i < 16.
Proof.
  unfold Codec.in_span. intros H. apply andb_true_iff in H. destruct H as [H1 H2].
  apply Z.leb_le in H1. apply Z.ltb_lt in H2.
  destruct f; cbn [Codec.field_lsb Codec.field_width] in *; lia.
Qed.

(** The spans of two different fields share no bit. *)
Lemma spans_disjoint f g i :
  f <> g -> Codec.in_span f i = true -> Codec.in_span g i = false.
Proof.
  intros Hfg H. unfold Codec.in_span in *.
  apply andb_true_iff in H. destruct H as [H1 H2].
  apply Z.leb_le in H1. apply Z.ltb_lt in H2.
  apply andb_false_iff.
  destruct f, g; try congruence; cbn [Codec.field_lsb Codec.field_width] in *;
    try (left; apply Z.leb_gt; lia); right; apply Z.ltb_ge; lia.
Qed.

(** The getter's extraction after the setter's manipulation. *)
Lemma unpackField_packField cfg f v :
  Codec.unpackField (Codec.packField cfg f v) f = field_norm f v.
Proof.
  pose proof (field_norm_range f v) as Hn.
  pose proof (field_width_small f) as Hw.
  assert (Hl : 0 <= Codec.field_lsb f) by (destruct f; cbn; lia).
  rewrite unpackField_get by apply packField_range.
  apply Z.bits_inj'. intros i Hi.
  rewrite Z.land_spec, Z.shiftr_spec, Z.testbit_ones_nonneg by lia.
  rewrite packField_bits by lia.
  unfold Codec.in_span.
  destruct (Z.ltb_spec i (Codec.field_width f)).
  - assert (i + Codec.field_lsb f < 16) by (destruct f; cbn in *; lia).
    destruct (Z.ltb_spec (i + Codec.field_lsb f) 16); [|lia].
    destruct (Z.leb_spec (Codec.field_lsb f) (i + Codec.field_lsb f)); [|lia].
    destruct (Z.ltb_spec (i + Codec.field_lsb f)
                         (Codec.field_lsb f + Codec.field_width f)); [|lia].
    cbn. rewrite andb_true_r. f_equal. lia.
  - rewrite andb_false_r. symmetry.
    rewrite <- (land_ones_small (field_norm f v) (Codec.field_width f)) by lia.
    rewrite Z.land_spec, Z.testbit_ones_nonneg by lia.
    destruct (Z.ltb_spec i (Codec.field_width f)); [lia|]. apply andb_false_r.
Qed.

(** X1. Whatever integer is handed to a setter, the matching getter
    reads back what the setter keeps of it: the low bits for the
    mask-and-shift fields, zero or one for the polarity. What is kept
    fits the field, and is the argument itself when that fits. *)
Theorem unpack_pack_any_value :
  forall (cfg : Z) (f : Codec.Field) (v : Z),
    Codec.unpackField (Codec.packField cfg f v) f = field_norm f v /\
    0 <= field_norm f v < 2 ^ Codec.field_width f /\
    (0 <= v < 2 ^ Codec.field_width f -> field_norm f v = v).
Proof.
  intros cfg f v. split; [apply unpackField_packField|].
  split; [apply field_norm_range|].
  intros Hv. destruct f; cbn [field_norm Codec.field_width] in *;
    try (apply Z.mod_small; assumption).
  assert (v = 0 \/ v = 1) as [-> | ->] by lia; reflexivity.
Qed.

Lemma unpack_pack_any_value_witness : field_norm Codec.FConvRate 5 = 5.
Proof.
  apply (unpack_pack_any_value 0 Codec.FConvRate 5). cbn. lia.
Defined.

(** X2. Setting a field twice is setting it to the second value. *)
Theorem pack_overwrites :
  forall (cfg : Z) (f : Codec.Field) (v1 v2 : Z),
    Codec.packField (Codec.packField cfg f v1) f v2 = Codec.packField cfg f v2.
Proof.
  intros cfg f v1 v2. apply Z.bits_inj'. intros i Hi.
  rewrite !packField_bits by assumption.
  destruct (Codec.in_span f i); [reflexivity|].
  destruct (i <? 16); reflexivity.
Qed.

(** X3. Setters of two different fields can be applied in either
    order. *)
Theorem pack_commutes :
  forall (cfg : Z) (f g : Codec.Field) (v w : Z),
    f <> g ->
    Codec.packField (Codec.packField cfg f v) g w
    = Codec.packField (Codec.packField cfg g w) f v.
Proof.
  intros cfg f g v w Hfg. apply Z.bits_inj'. intros i Hi.
  rewrite !packField_bits by assumption.
  destruct (Codec.in_span f i) eqn:Ef, (Codec.in_span g i) eqn:Eg.
  - rewrite (spans_disjoint f g i Hfg Ef) in Eg. discriminate.
  - destruct (i <? 16); reflexivity.
  - destruct (i <? 16); reflexivity.
  - destruct (i <? 16); reflexivity.
Qed.

Lemma pack_commutes_witness :
  Codec.packField (Codec.packField 0xFFFF Codec.FMode 1) Codec.FAveraging 2
  = Codec.packField (Codec.packField 0xFFFF Codec.FAveraging 2) Codec.FMode 1.
Proof.
  apply (pack_commutes 0xFFFF Codec.FMode Codec.FAveraging 1 2). discriminate.
Defined.

(** The getter of one field after the setter of another. *)
Lemma unpackField_other cfg f g v :
  0 <= cfg < 2 ^ 16 -> f <> g ->
  Codec.unpackField (Codec.packField cfg f v) g = Codec.unpackField cfg g.
Proof.
  intros Hc Hfg.
  pose proof (field_width_small g) as Hw.
  assert (Hl : 0 <= Codec.field_lsb g) by (destruct g; cbn; lia).
  rewrite !unpackField_get by (try apply packField_range; lia).
  apply Z.bits_inj'. intros i Hi.
  rewrite !Z.land_spec, !Z.shiftr_spec, Z.testbit_ones_nonneg by lia.
  destruct (Z.ltb_spec i (Codec.field_width g)); [|now rewrite !andb_false_r].
  rewrite !andb_true_r, packField_bits by lia.
  assert (Eg : Codec.in_span g (i + Codec.field_lsb g) = true).
  { unfold Codec.in_span. apply andb_true_iff. split; [apply Z.leb_le | apply Z.ltb_lt]; lia. }
  assert (Ef : Codec.in_span f (i + Codec.field_lsb g) = false).
  { destruct (Codec.in_span f (i + Codec.field_lsb g)) eqn:E; [|reflexivity].
    rewrite (spans_disjoint f g _ Hfg E) in Eg. discriminate. }
  rewrite Ef. pose proof (in_span_16 g _ Eg).
  destruct (Z.ltb_spec (i + Codec.field_lsb g) 16); [reflexivity | lia].
Qed.

(** X4. A setter leaves what the getters of the other fields read. *)
Theorem unpack_other_field :
  forall (cfg : Z) (f g : Codec.Field) (v : Z),
    0 <= cfg < 2 ^ 16 -> f <> g ->
    Codec.unpackField (Codec.packField cfg f v) g = Codec.unpackField cfg g.
Proof.
  intros cfg f g v Hc Hfg. now apply unpackField_other.
Qed.

Lemma unpack_other_field_witness :
  Codec.unpackField (Codec.packField 0x0123 Codec.FMode 3) Codec.FConvRate
  = Codec.unpackField 0x0123 Codec.FConvRate.
Proof.
  apply (unpack_other_field 0x0123 Codec.FMode Codec.FConvRate 3); [lia | discriminate].
Defined.

(** What a getter extracts fits its field. *)
Lemma unpackField_range cfg f :
  0 <= cfg -> 0 <= Codec.unpackField cfg f < 2 ^ Codec.field_width f.
Proof.
  intros Hc. rewrite unpackField_get by assumption.
  pose proof (field_width_small f).
  rewrite Z.land_ones by lia. apply Z.mod_pos_bound.
  apply Z.pow_pos_nonneg; lia.
Qed.

(** * Further properties of the register access *)

(** X5. [(int16_t)] and the conversion back to [uint16_t] are inverse
    to each other: a code survives the trip through a register, a
    register word survives the trip through a code, and a code is
    negative exactly when bit 15 of the word is set. *)
Theorem s16_u16_inverse :
  forall z : Z,
    (- 2 ^ 15 <= z < 2 ^ 15 -> s16 (u16 z) = z) /\
    (0 <= z < 2 ^ 16 -> u16 (s16 z) = z) /\
    - 2 ^ 15 <= s16 z < 2 ^ 15 /\
    (0 <= z < 2 ^ 16 -> (s16 z < 0 <-> Z.testbit z 15 = true)).
Proof.
  intros z. unfold s16, u16.
  change (2 ^ 16) with 65536. change (2 ^ 15) with 32768.
  split; [|split; [|split]].
  - intros Hz. rewrite Z.mod_mod by lia.
    destruct (Z.ltb_spec (z mod 65536) 32768); Z.div_mod_to_equations; lia.
  - intros Hz. rewrite (Z.mod_small z 65536) by lia.
    destruct (Z.ltb_spec z 32768); Z.div_mod_to_equations; lia.
  - destruct (Z.ltb_spec (z mod 65536) 32768); Z.div_mod_to_equations; lia.
  - intros Hz. rewrite (Z.mod_small z 65536) by lia.
    assert (Hb : Z.testbit z 15 = negb (z <? 32768)).
    { rewrite Z.testbit_eqb by lia. change (2 ^ 15) with 32768.
      destruct (Z.ltb_spec z 32768) as [Hlt | Hge]; cbn [negb].
      - rewrite Z.div_small by lia. reflexivity.
      - replace (z / 32768) with 1 by (Z.div_mod_to_equations; lia). reflexivity. }
    rewrite Hb. destruct (Z.ltb_spec z 32768); cbn [negb]; split;
      try lia; try discriminate; reflexivity.
Qed.

Lemma s16_u16_inverse_witness :
  s16 (u16 (-1234)) = -1234 /\ u16 (s16 0xFB2E) = 0xFB2E.
Proof.
  split.
  - apply (s16_u16_inverse (-1234)). lia.
  - apply (s16_u16_inverse 0xFB2E). lia.
Defined.

(** Either outcome of a register read, as the two results a caller of
    [readReg] can see. *)
Lemma readReg_cases bus reg value s :
  exists s',
    self s' = self s /\
    log s' = log s ++ snd (read_outcome bus (log s) (self s) reg) /\
    ((exists v, fst (read_outcome bus (log s) (self s) reg) = Some v /\
                0 <= v < 2 ^ 16 /\
                readReg bus reg value s = ((true, v), s')) \/
     (fst (read_outcome bus (log s) (self s) reg) = None /\
      readReg bus reg value s = ((false, value), s'))).
Proof.
  destruct (readReg_run bus reg value s) as (s' & E & Hs & Hl).
  exists s'. split; [assumption|]. split; [assumption|].
  destruct (fst (read_outcome bus (log s) (self s) reg)) as [v|] eqn:Ev.
  - left. exists v. split; [reflexivity|]. split; [|assumption].
    destruct (read_outcome_some _ _ _ _ _ Ev) as (hi & lo & -> & Hh & Hl' & _). lia.
  - right. split; [reflexivity | assumption].
Qed.

Ltac read_cases b r v st :=
  let s' := fresh "s'" in
  let Hs := fresh "Hself" in
  let Hl := fresh "Hlog" in
  let w := fresh "w" in
  let Hw := fresh "Hw" in
  let Hr := fresh "Hrange" in
  let E := fresh "E" in
  destruct (readReg_cases b r v st)
    as (s' & Hs & Hl & [(w & Hw & Hr & E) | (Hw & E)]);
  rewrite E; clear E;
  cbv beta iota zeta delta [bind negb ret]; cbn [fst snd].

Ltac unfold_getters :=
  unfold readTemperatureF, readTemperatureC, readRawTemperature,
    getConversionRate, getAveraging, getMode, getHighLimit, getLowLimit,
    getOffset, getThermAlertMode, getAlertPolarity, getDeviceID, readConfig;
  cbv beta iota zeta delta [bind].

(** X6. A getter that does not refuse its argument performs one
    register read of its own register and nothing else: the log gains
    the pointer transmission and, when that is acknowledged, one
    request; the facade is unchanged; the getter succeeds exactly when
    the read delivers a word. A refused [readEEPROM] does nothing. *)
Theorem getter_single_read :
  forall (bus : Bus) (g : Getter) (out : out_type g) (s : State),
    let d := self s in
    let r := run_getter bus g out s in
    if getter_refused g then r = ((false, out), s)
    else
      self (snd r) = d /\
      (exists got,
          log (snd r)
          = log s ++ pointer_txn d (getter_reg g)
                       (pointer_status bus (log s) d (getter_reg g))
                     :: (if pointer_status bus (log s) d (getter_reg g) =? 0
                         then [fetch_txn d got] else [])) /\
      (fst (fst r) = true <->
       exists w, fst (read_outcome bus (log s) d (getter_reg g)) = Some w).
Proof.
  intros bus g out s d r. subst d r.
  destruct (read_outcome_shape bus (log s) (self s) (getter_reg g)) as (got & Hshape).
  assert (Hsome : forall w : Z, (true = true <-> exists w0 : Z, Some w = Some w0))
    by (intros w; split; [intros _; now exists w | reflexivity]).
  assert (Hnone : false = true <-> exists w0 : Z, @None Z = Some w0)
    by (split; [discriminate | intros (w0 & [=])]).
  destruct g as [ | | | | | | | | | | | | reg | ];
    cbn [getter_refused run_getter out_type getter_reg] in *;
    try (unfold readEEPROM; destruct (not_eeprom reg); [reflexivity|]);
    unfold_getters;
    match goal with
    | |- context [readReg ?b ?r ?v ?st] => read_cases b r v st
    end;
    rewrite Hw;
    (split; [assumption|]);
    (split; [exists got; rewrite Hlog, Hshape; reflexivity|]);
    first [apply Hsome | apply Hnone].
Qed.

(** X7. What a field getter delivers on success fits the field:
    0..3 for the mode and the averaging, 0..7 for the conversion rate,
    0..1 for the therm/alert selection and the polarity. *)
Theorem field_getter_range :
  forall (bus : Bus) (f : Codec.Field) (out : Z) (s : State),
    fst (fst (get_field bus f out s)) = true ->
    0 <= snd (fst (get_field bus f out s)) < 2 ^ Codec.field_width f.
Proof.
  intros bus f out s.
  destruct f; cbn [get_field]; unfold_getters;
    match goal with
    | |- context [readReg ?b ?r ?v ?st] => read_cases b r v st
    end;
    try discriminate; intros _;
    match goal with
    | |- _ <= ?u _ < 2 ^ Codec.field_width ?f =>
        change (u w) with (Codec.unpackField w f)
    end;
    apply unpackField_range; lia.
Qed.

(** No device: the getter fails and the range statement is about
    nothing; with the register-file device the mode read is in 0..3. *)
Lemma field_getter_range_witness :
  0 <= snd (fst (get_field sim_bus Codec.FMode 9 s0)) < 2 ^ 2.
Proof.
  apply (field_getter_range sim_bus Codec.FMode 9 s0). reflexivity.
Defined.

(** X8. The three temperature reads are one and the same register
    read: they leave the same state and have the same status. On
    success the raw code is the register word as an [int16_t], the
    Celsius value is [rawToCelsius] of that code, and the Fahrenheit
    value is the Celsius value times [1.8f] plus [32.0f]. *)
Theorem temperature_reads_agree :
  forall (bus : Bus) (s : State) (o1 : Z) (o2 o3 : float32),
    let rr := readRawTemperature bus o1 s in
    let rc := readTemperatureC bus o2 s in
    let rf := readTemperatureF bus o3 s in
    snd rc = snd rr /\ snd rf = snd rr /\
    fst (fst rc) = fst (fst rr) /\ fst (fst rf) = fst (fst rr) /\
    (fst (fst rr) = true ->
     - 2 ^ 15 <= snd (fst rr) < 2 ^ 15 /\
     snd (fst rc) = rawToCelsius (snd (fst rr)) /\
     snd (fst rf) = f32_add (f32_mul (snd (fst rc)) f32_1_8) f32_32_0).
Proof.
  intros bus s o1 o2 o3 rr rc rf. subst rr rc rf. unfold_getters.
  read_cases bus REG_TEMP uninit16 s.
  - repeat split; try reflexivity. all: apply s16_u16_inverse.
  - repeat split; try reflexivity; discriminate.
Qed.

Lemma temperature_reads_agree_witness :
  snd (fst (readTemperatureC sim_bus uninitf s0))
  = rawToCelsius (snd (fst (readRawTemperature sim_bus 0 s0))).
Proof.
  apply (temperature_reads_agree sim_bus s0 0 uninitf uninitf). reflexivity.
Defined.

(** X9. [reset], [writeConfig] and the limit and offset setters are a
    single register write with no read before it: [reset] sends 0x8000
    to the configuration register, a limit or offset setter sends the
    converted code as a 16-bit word to its own register, and each
    returns whether that write was acknowledged. *)
Theorem blind_single_writes :
  forall (bus : Bus) (s : State),
    let d := self s in
    (forall config,
        log (snd (writeConfig bus config s))
        = log s ++ [write_txn d REG_CONFIG config
                      (write_status bus (log s) d REG_CONFIG config)] /\
        fst (writeConfig bus config s)
        = (write_status bus (log s) d REG_CONFIG config =? 0)) /\
    (log (snd (reset bus s))
     = log s ++ [write_txn d REG_CONFIG 0x8000
                   (write_status bus (log s) d REG_CONFIG 0x8000)] /\
     fst (reset bus s) = (write_status bus (log s) d REG_CONFIG 0x8000 =? 0)) /\
    (forall t temp raw,
        celsiusToRaw temp = Some raw ->
        exists m,
          set_temp bus t temp = Some m /\
          log (snd (m s))
          = log s ++ [write_txn d (temp_reg t) (u16 raw)
                        (write_status bus (log s) d (temp_reg t) (u16 raw))] /\
          fst (m s) = (write_status bus (log s) d (temp_reg t) (u16 raw) =? 0)).
Proof.
  intros bus s d.
  assert (Hw : forall reg v,
             log (snd (writeReg bus reg v s))
             = log s ++ [write_txn d reg v (write_status bus (log s) d reg v)] /\
             fst (writeReg bus reg v s) = (write_status bus (log s) d reg v =? 0)).
  { intros reg v. destruct (writeReg_run bus reg v s) as (s' & E & _ & Hl).
    rewrite E. cbn [fst snd]. split; [exact Hl | reflexivity]. }
  split; [|split].
  - intros config. apply (Hw REG_CONFIG config).
  - apply (Hw REG_CONFIG 0x8000).
  - intros t temp raw Hraw.
    exists (writeReg bus (temp_reg t) (u16 raw)).
    split; [|apply (Hw (temp_reg t) (u16 raw))].
    destruct t; cbn [set_temp temp_reg];
      unfold setHighLimit, setLowLimit, setOffset; rewrite Hraw; reflexivity.
Qed.

(** A high limit of 35 degrees: the word 0x1180 goes to register 2. *)
Lemma blind_single_writes_witness :
  exists m,
    set_temp sim_bus THigh (f32_of_int 35) = Some m /\
    log (snd (m s0)) = [write_txn (self s0) REG_T_HIGH 0x1180 0] /\
    fst (m s0) = true.
Proof.
  destruct (blind_single_writes sim_bus s0) as (_ & _ & H).
  destruct (H THigh (f32_of_int 35) 4480 eq_refl) as (m & E & Hl & Hr).
  exists m. split; [exact E|]. split; [exact Hl | exact Hr].
Defined.

(** * The driver on the register-file device *)

Lemma sim_image_snoc h e : sim_image (h ++ [e]) = sim_step (sim_image h) e.
Proof. unfold sim_image. now rewrite fold_left_app. Qed.

(** A word cut into its two bytes and joined again. *)
Lemma split_join c : u8 (Z.shiftr c 8) * 256 + u8 (Z.land c 0xFF) = u16 c.
Proof.
  unfold u8, u16. rewrite Z.shiftr_div_pow2 by lia.
  change 0xFF with (Z.ones 8). rewrite Z.land_ones by lia.
  change (2 ^ 8) with 256. change (2 ^ 16) with 65536.
  Z.div_mod_to_equations. lia.
Qed.

Lemma s16_of_u16 z : - 2 ^ 15 <= z < 2 ^ 15 -> s16 (u16 z) = z.
Proof.
  intros Hz. unfold s16, u16.
  change (2 ^ 16) with 65536 in *. change (2 ^ 15) with 32768 in *.
  rewrite Z.mod_mod by lia.
  destruct (Z.ltb_spec (z mod 65536) 32768); Z.div_mod_to_equations; lia.
Qed.

Lemma code_roundtrip code :
  - 2 ^ 15 <= code < 2 ^ 15 -> celsiusToRaw (rawToCelsius code) = Some code.
Proof.
  intros Hc.
  pose proof (all_bits_spec 16 0 _ all_codes_roundtrip (code + 2 ^ 15)) as Hall.
  cbv beta in Hall. replace (code + 2 ^ 15 - 2 ^ 15) with code in Hall by lia.
  specialize (Hall ltac:(cbn; lia)).
  unfold code_roundtrip_ok in Hall. cbv zeta in Hall.
  apply andb_true_iff in Hall. destruct Hall as [_ Hrt].
  destruct (celsiusToRaw (rawToCelsius code)) as [c|]; [|discriminate].
  apply Z.eqb_eq in Hrt. now subst c.
Qed.

(** Waiting changes no register. *)
Lemma reg_of_delay s ms r :
  reg_of (mkState (self s) (wires s) (log s ++ [EvDelay ms])) r = reg_of s r.
Proof. unfold reg_of. cbn [self log]. now rewrite sim_image_snoc. Qed.

(** A register write on the device: acknowledged, and the register
    holds the word afterwards; the other registers keep theirs. *)
Lemma writeReg_sim reg v s :
  0 <= v < 2 ^ 16 ->
  exists s',
    writeReg sim_bus reg v s = (true, s') /\
    self s' = self s /\
    forall r, reg_of s' r = if r =? u8 reg then v else reg_of s r.
Proof.
  intros Hv. destruct (writeReg_run sim_bus reg v s) as (s' & E & Hs & Hl).
  exists s'. split; [exact E|]. split; [exact Hs|].
  intros r. unfold reg_of. rewrite Hs, Hl, sim_image_snoc.
  change (write_status sim_bus (log s) (self s) reg v) with 0.
  unfold write_txn. rewrite write_bytes_big_endian by assumption.
  cbv beta iota delta [sim_step]. rewrite Nat.eqb_refl, Z.eqb_refl.
  cbv beta iota delta [andb dev_write cells].
  destruct (r =? u8 reg); [|reflexivity].
  rewrite (Z.div_mod v 256) at 3 by lia. lia.
Qed.

(** A register read on the device: it succeeds with the low 16 bits of
    what the register holds, and changes no register. *)
Lemma readReg_sim reg out s :
  exists s',
    readReg sim_bus reg out s = ((true, u16 (reg_of s (u8 reg))), s') /\
    self s' = self s /\
    forall r, reg_of s' r = reg_of s r.
Proof.
  destruct (readReg_run sim_bus reg out s) as (s' & E & Hs & Hl).
  set (d := self s) in *.
  set (c := reg_of s (u8 reg)).
  assert (Hf : fetched sim_bus (log s ++ [pointer_txn d reg 0]) d
               = [u8 (Z.shiftr c 8); u8 (Z.land c 0xFF)]).
  { unfold fetched, sim_bus. cbn [reply].
    rewrite sim_image_snoc. unfold pointer_txn.
    cbv beta iota delta [sim_step]. rewrite Nat.eqb_refl, Z.eqb_refl.
    cbv beta iota delta [andb dev_write cells pointer]. reflexivity. }
  assert (Hout : read_outcome sim_bus (log s) d reg
                 = (Some (u16 c),
                    [pointer_txn d reg 0;
                     fetch_txn d [u8 (Z.shiftr c 8); u8 (Z.land c 0xFF)]])).
  { unfold read_outcome.
    change (pointer_status sim_bus (log s) d reg) with 0.
    cbn [Z.eqb negb]. rewrite Hf. now rewrite split_join. }
  rewrite Hout in E, Hl. cbn [fst snd] in E, Hl.
  exists s'. split; [exact E|]. split; [exact Hs|].
  intros r. unfold reg_of. rewrite Hs, Hl. fold d.
  change (log s ++ [pointer_txn d reg 0;
                    fetch_txn d [u8 (Z.shiftr c 8); u8 (Z.land c 0xFF)]])
    with (log s ++ [pointer_txn d reg 0]
                ++ [fetch_txn d [u8 (Z.shiftr c 8); u8 (Z.land c 0xFF)]]).
  rewrite app_assoc, !sim_image_snoc. unfold pointer_txn, fetch_txn.
  cbv beta iota delta [sim_step]. rewrite Nat.eqb_refl, Z.eqb_refl.
  cbv beta iota delta [andb dev_write cells]. reflexivity.
Qed.

(** A configuration setter on the device. *)
Lemma run_setter_sim x s :
  exists s',
    run_setter sim_bus x s = (true, s') /\
    self s' = self s /\
    forall r, reg_of s' r =
              if r =? REG_CONFIG
              then Codec.packField (u16 (reg_of s REG_CONFIG))
                     (setter_field x) (setter_val x)
              else reg_of s r.
Proof.
  rewrite run_setter_unfold. unfold readConfig, writeConfig.
  cbv beta iota zeta delta [bind].
  destruct (readReg_sim REG_CONFIG uninit16 s) as (s1 & E1 & Hs1 & Hr1).
  rewrite E1. cbv beta iota delta [negb].
  change (u8 REG_CONFIG) with REG_CONFIG.
  set (w := Codec.packField (u16 (reg_of s REG_CONFIG)) (setter_field x) (setter_val x)).
  destruct (writeReg_sim REG_CONFIG w s1 (packField_range _ _ _))
    as (s2 & E2 & Hs2 & Hr2).
  rewrite E2. exists s2. split; [reflexivity|]. split; [congruence|].
  intros r. rewrite Hr2. change (u8 REG_CONFIG) with REG_CONFIG.
  destruct (r =? REG_CONFIG); [reflexivity | apply Hr1].
Qed.

(** A field getter on the device. *)
Lemma get_field_sim f out s :
  exists s',
    get_field sim_bus f out s
    = ((true, Codec.unpackField (u16 (reg_of s REG_CONFIG)) f), s') /\
    self s' = self s /\
    forall r, reg_of s' r = reg_of s r.
Proof.
  destruct (readReg_sim REG_CONFIG uninit16 s) as (s1 & E1 & Hs1 & Hr1).
  change (u8 REG_CONFIG) with REG_CONFIG in E1.
  exists s1. split; [|split; assumption].
  destruct f; cbn [get_field]; unfold_getters; rewrite E1; reflexivity.
Qed.

(** X10. On the register-file device every configuration setter
    succeeds, and the getter of the same field then delivers the value
    that was set. *)
Theorem setter_then_getter :
  forall (s : State) (x : Setter) (out : Z),
    let r := run_setter sim_bus x s in
    fst r = true /\
    fst (get_field sim_bus (setter_field x) out (snd r)) = (true, setter_val x).
Proof.
  intros s x out r. subst r.
  destruct (run_setter_sim x s) as (s1 & E1 & Hs1 & Hr1). rewrite E1.
  cbn [fst snd]. split; [reflexivity|].
  destruct (get_field_sim (setter_field x) out s1) as (s2 & E2 & _ & _).
  rewrite E2. cbn [fst]. f_equal.
  rewrite Hr1. cbn [Z.eqb REG_CONFIG Pos.eqb].
  rewrite u16_small by apply packField_range.
  rewrite unpackField_packField.
  pose proof (setter_val_range x) as Hv.
  destruct x as [[]|[]|[]|[]|[]]; reflexivity.
Qed.

(** X11. On the register-file device a configuration setter leaves
    what the getters of the other four fields deliver. *)
Theorem setter_keeps_other_fields :
  forall (s : State) (x : Setter) (g : Codec.Field) (out : Z),
    g <> setter_field x ->
    fst (get_field sim_bus g out (snd (run_setter sim_bus x s)))
    = fst (get_field sim_bus g out s).
Proof.
  intros s x g out Hg.
  destruct (run_setter_sim x s) as (s1 & E1 & Hs1 & Hr1). rewrite E1.
  cbn [snd].
  destruct (get_field_sim g out s1) as (s2 & E2 & _ & _).
  destruct (get_field_sim g out s) as (s3 & E3 & _ & _).
  rewrite E2, E3. cbn [fst]. f_equal.
  rewrite Hr1. cbn [Z.eqb REG_CONFIG Pos.eqb].
  rewrite u16_small by apply packField_range.
  apply unpackField_other; [apply u16_range | congruence].
Qed.

Lemma setter_keeps_other_fields_witness :
  fst (get_field sim_bus Codec.FConvRate 0
         (snd (run_setter sim_bus (SSetMode ONE_SHOT) s0)))
  = fst (get_field sim_bus Codec.FConvRate 0 s0).
Proof.
  apply (setter_keeps_other_fields s0 (SSetMode ONE_SHOT) Codec.FConvRate 0).
  discriminate.
Defined.

Lemma eeprom_reg_byte reg :
  reg = REG_EEPROM1 \/ reg = REG_EEPROM2 \/ reg = REG_EEPROM3 ->
  u8 reg = reg /\ reg <> REG_EEPROM_UL.
Proof. intros [-> | [-> | ->]]; split; try reflexivity; discriminate. Qed.

(** [writeEEPROM] on the device: the slot holds the word, the unlock
    register is back at zero, every other register is as before. *)
Lemma writeEEPROM_sim reg v s :
  reg = REG_EEPROM1 \/ reg = REG_EEPROM2 \/ reg = REG_EEPROM3 ->
  0 <= v < 2 ^ 16 ->
  exists s',
    writeEEPROM sim_bus reg v s = (true, s') /\
    self s' = self s /\
    forall r, reg_of s' r =
              if r =? REG_EEPROM_UL then 0
              else if r =? reg then v else reg_of s r.
Proof.
  intros Hreg Hv. destruct (eeprom_reg_byte reg Hreg) as [Hb Hne].
  unfold writeEEPROM, unlockEEPROM, lockEEPROM.
  rewrite (not_eeprom_false reg Hreg).
  cbv beta iota zeta delta [bind].
  destruct (writeReg_sim REG_EEPROM_UL 0x8000 s ltac:(lia)) as (s1 & E1 & Hs1 & Hr1).
  rewrite E1. run_wire.
  destruct (writeReg_sim reg v (mkState (self s1) (wires s1) (log s1 ++ [EvDelay 2])) Hv)
    as (s2 & E2 & Hs2 & Hr2).
  rewrite E2. run_wire.
  destruct (writeReg_sim REG_EEPROM_UL 0x0000
              (mkState (self s2) (wires s2) (log s2 ++ [EvDelay 10])) ltac:(lia))
    as (s3 & E3 & Hs3 & Hr3).
  rewrite E3. run_wire.
  eexists. split; [reflexivity|]. cbn [self] in *. split; [congruence|].
  intros r. rewrite reg_of_delay, Hr3, reg_of_delay, Hr2, reg_of_delay, Hr1.
  change (u8 REG_EEPROM_UL) with REG_EEPROM_UL. rewrite Hb.
  destruct (Z.eqb_spec r REG_EEPROM_UL) as [-> | Hn]; [reflexivity|].
  reflexivity.
Qed.

(** X12. On the register-file device, [writeEEPROM] on a scratch slot
    succeeds and [readEEPROM] of that slot then delivers the word
    written; the unlock register is left at zero (locked), and every
    other register, the other two slots included, holds what it held
    before. *)
Theorem eeprom_write_then_read :
  forall (s : State) (reg v out : Z),
    reg = REG_EEPROM1 \/ reg = REG_EEPROM2 \/ reg = REG_EEPROM3 ->
    0 <= v < 2 ^ 16 ->
    let w := writeEEPROM sim_bus reg v s in
    fst w = true /\
    fst (readEEPROM sim_bus reg out (snd w)) = (true, v) /\
    reg_of (snd w) REG_EEPROM_UL = 0 /\
    (forall r, r <> reg -> r <> REG_EEPROM_UL -> reg_of (snd w) r = reg_of s r).
Proof.
  intros s reg v out Hreg Hv w. subst w.
  destruct (eeprom_reg_byte reg Hreg) as [Hb Hne].
  destruct (writeEEPROM_sim reg v s Hreg Hv) as (s1 & E1 & Hs1 & Hr1).
  rewrite E1. cbn [fst snd]. split; [reflexivity|]. split; [|split].
  - unfold readEEPROM. rewrite (not_eeprom_false reg Hreg).
    destruct (readReg_sim reg out s1) as (s2 & E2 & _ & _). rewrite E2.
    cbn [fst]. f_equal. rewrite Hb, Hr1.
    destruct (Z.eqb_spec reg REG_EEPROM_UL); [contradiction|].
    rewrite Z.eqb_refl. now apply u16_small.
  - rewrite Hr1. reflexivity.
  - intros r Hr Hul. rewrite Hr1.
    destruct (Z.eqb_spec r REG_EEPROM_UL); [contradiction|].
    destruct (Z.eqb_spec r reg); [contradiction | reflexivity].
Qed.

Lemma eeprom_write_then_read_witness :
  fst (readEEPROM sim_bus REG_EEPROM2 0
         (snd (writeEEPROM sim_bus REG_EEPROM2 0xCAFE s0)))
  = (true, 0xCAFE).
Proof.
  apply (eeprom_write_then_read s0 REG_EEPROM2 0xCAFE 0); [right; left; reflexivity | lia].
Defined.

(** X13. For every [int16_t] code the limit and offset setters accept
    the temperature [rawToCelsius code]; on the register-file device
    the setter succeeds, its register then holds the code as a 16-bit
    word, and the matching getter delivers the same temperature
    again. *)
Theorem limit_set_then_get :
  forall (s : State) (t : TempReg) (code : Z) (out : float32),
    - 2 ^ 15 <= code < 2 ^ 15 ->
    exists m,
      set_temp sim_bus t (rawToCelsius code) = Some m /\
      fst (m s) = true /\
      reg_of (snd (m s)) (temp_reg t) = u16 code /\
      fst (get_temp sim_bus t out (snd (m s))) = (true, rawToCelsius code).
Proof.
  intros s t code out Hc.
  exists (writeReg sim_bus (temp_reg t) (u16 code)). split.
  { destruct t; cbn [set_temp temp_reg];
      unfold setHighLimit, setLowLimit, setOffset;
      rewrite (code_roundtrip code Hc); reflexivity. }
  destruct (writeReg_sim (temp_reg t) (u16 code) s (u16_range code))
    as (s1 & E1 & Hs1 & Hr1).
  rewrite E1. cbn [fst snd].
  assert (Hb : u8 (temp_reg t) = temp_reg t) by (destruct t; reflexivity).
  assert (Hreg : reg_of s1 (temp_reg t) = u16 code)
    by (rewrite Hr1, Hb, Z.eqb_refl; reflexivity).
  split; [reflexivity|]. split; [exact Hreg|].
  destruct (readReg_sim (temp_reg t) uninit16 s1) as (s2 & E2 & _ & _).
  rewrite Hb, Hreg, (u16_small (u16 code) (u16_range code)) in E2.
  destruct t; cbn [get_temp temp_reg] in *; unfold_getters; rewrite E2;
    cbv beta iota delta [negb ret]; cbn [fst];
    now rewrite s16_of_u16.
Qed.

Lemma limit_set_then_get_witness :
  exists m,
    set_temp sim_bus TLow (rawToCelsius (-2560)) = Some m /\
    fst (m s0) = true /\
    reg_of (snd (m s0)) REG_T_LOW = 0xF600 /\
    fst (get_temp sim_bus TLow uninitf (snd (m s0))) = (true, rawToCelsius (-2560)).
Proof.
  apply (limit_set_then_get s0 TLow (-2560) uninitf). lia.
Defined.

(** * The sketch [One_Shot_Read.ino] *)

Lemma s16_u16_same z : s16 (u16 z) = s16 z.
Proof. unfold s16. now rewrite (u16_small (u16 z) (u16_range z)). Qed.

(** [readTemperatureC] on the register-file device. *)
Lemma readTemperatureC_sim out s :
  exists s',
    readTemperatureC sim_bus out s
    = ((true, rawToCelsius (s16 (reg_of s REG_TEMP))), s') /\
    self s' = self s /\
    forall r, reg_of s' r = reg_of s r.
Proof.
  destruct (readReg_sim REG_TEMP uninit16 s) as (s1 & E1 & Hs1 & Hr1).
  change (u8 REG_TEMP) with REG_TEMP in E1.
  exists s1. split; [|split; assumption].
  unfold_getters. rewrite E1. cbv beta iota delta [negb ret].
  now rewrite s16_u16_same.
Qed.

(** One pass through [loop()] on the register-file device. *)
Lemma one_shot_loop_sim sk :
  let sk' := one_shot_loop sim_bus sk in
  self (tmp sk') = self (tmp sk) /\
  (forall r, reg_of (tmp sk') r =
             if r =? REG_CONFIG
             then Codec.packField
                    (Codec.packField (u16 (reg_of (tmp sk) REG_CONFIG))
                       Codec.FMode (mode_val ONE_SHOT))
                    Codec.FMode (mode_val SHUTDOWN)
             else reg_of (tmp sk) r) /\
  serial sk' = serial sk ++ [SPrint "One-shot Temp: "%string;
                             SPrintFloat (rawToCelsius (s16 (reg_of (tmp sk) REG_TEMP))) 4;
                             SPrintln " C"%string].
Proof.
  cbv zeta. unfold one_shot_loop.
  change (setMode sim_bus ONE_SHOT) with (run_setter sim_bus (SSetMode ONE_SHOT)).
  change (setMode sim_bus SHUTDOWN) with (run_setter sim_bus (SSetMode SHUTDOWN)).
  destruct (run_setter_sim (SSetMode ONE_SHOT) (tmp sk)) as (t1 & E1 & Hs1 & Hr1).
  rewrite E1. cbv beta iota delta [delay emit].
  destruct (readTemperatureC_sim (S754_zero false)
              (mkState (self t1) (wires t1) (log t1 ++ [EvDelay 30])))
    as (t3 & E3 & Hs3 & Hr3).
  rewrite E3.
  destruct (run_setter_sim (SSetMode SHUTDOWN) t3) as (t4 & E4 & Hs4 & Hr4).
  rewrite E4. cbn [tmp serial self] in *.
  split; [congruence|]. split.
  - intros r. rewrite reg_of_delay, Hr4, !Hr3, !reg_of_delay, !Hr1.
    cbn [setter_field setter_val]. change (REG_CONFIG =? REG_CONFIG) with true.
    cbv beta iota.
    rewrite (u16_small (Codec.packField _ _ _)) by apply packField_range.
    destruct (r =? REG_CONFIG); reflexivity.
  - rewrite reg_of_delay, Hr1. reflexivity.
Qed.

(** X14. On the register-file device, after any positive number of
    passes through [loop()] the mode field reads SHUTDOWN, and after
    any number of passes the other four configuration fields read what
    they read before the first pass: the conversion rate and averaging
    chosen in [setup()] survive the one-shot cycle. *)
Theorem one_shot_loops_leave_shutdown :
  forall (n : nat) (sk : Sketch) (g : Codec.Field) (out : Z),
    let sk' := one_shot_loops sim_bus n sk in
    self (tmp sk') = self (tmp sk) /\
    ((0 < n)%nat ->
     fst (get_field sim_bus Codec.FMode out (tmp sk')) = (true, mode_val SHUTDOWN)) /\
    (g <> Codec.FMode ->
     fst (get_field sim_bus g out (tmp sk')) = fst (get_field sim_bus g out (tmp sk))).
Proof.
  assert (Hget : forall t g out,
             fst (get_field sim_bus g out t)
             = (true, Codec.unpackField (u16 (reg_of t REG_CONFIG)) g)).
  { intros t g out. destruct (get_field_sim g out t) as (t' & E & _ & _).
    now rewrite E. }
  assert (Hone : forall sk g out,
             fst (get_field sim_bus Codec.FMode out (tmp (one_shot_loop sim_bus sk)))
             = (true, mode_val SHUTDOWN) /\
             (g <> Codec.FMode ->
              fst (get_field sim_bus g out (tmp (one_shot_loop sim_bus sk)))
              = fst (get_field sim_bus g out (tmp sk)))).
  { intros sk g out.
    destruct (one_shot_loop_sim sk) as (_ & Hr & _).
    rewrite !Hget, Hr. change (REG_CONFIG =? REG_CONFIG) with true. cbv beta iota.
    rewrite (u16_small (Codec.packField _ _ _)) by apply packField_range.
    split.
    - now rewrite unpackField_packField.
    - intros Hg.
      rewrite !unpackField_other;
        [reflexivity | apply u16_range | congruence | apply packField_range | congruence]. }
  induction n as [|n IH]; intros sk g out; cbn [one_shot_loops].
  - split; [reflexivity|]. split; [lia | reflexivity].
  - cbv zeta in *. specialize (IH (one_shot_loop sim_bus sk) g out).
    destruct IH as (IHs & IHm & IHg).
    destruct (one_shot_loop_sim sk) as (Hs & _ & _).
    destruct (Hone sk g out) as (Hm1 & Hg1).
    split; [congruence|]. split.
    + intros _. destruct n as [|n]; [exact Hm1 | apply IHm; lia].
    + intros Hg. rewrite (IHg Hg). now apply Hg1.
Qed.

Lemma one_shot_loops_leave_shutdown_witness :
  fst (get_field sim_bus Codec.FMode 0 (tmp (one_shot_loops sim_bus 3 (mkSketch s0 []))))
  = (true, mode_val SHUTDOWN) /\
  fst (get_field sim_bus Codec.FAveraging 0
         (tmp (one_shot_loops sim_bus 3 (mkSketch s0 []))))
  = fst (get_field sim_bus Codec.FAveraging 0 s0).
Proof.
  destruct (one_shot_loops_leave_shutdown 3 (mkSketch s0 []) Codec.FAveraging 0)
    as (_ & Hm & Hg).
  split; [apply Hm; lia | apply Hg; discriminate].
Defined.

(** X15. One pass through [loop()] on the register-file device prints
    the temperature that the temperature register holds: the label, the
    value [rawToCelsius] of the register word as an [int16_t] with four
    decimals, and the unit. *)
Theorem one_shot_loop_prints_temperature :
  forall sk : Sketch,
    serial (one_shot_loop sim_bus sk)
    = serial sk ++ [SPrint "One-shot Temp: "%string;
                    SPrintFloat (rawToCelsius (s16 (reg_of (tmp sk) REG_TEMP))) 4;
                    SPrintln " C"%string] /\
    forall r, r <> REG_CONFIG ->
              reg_of (tmp (one_shot_loop sim_bus sk)) r = reg_of (tmp sk) r.
Proof.
  intros sk. destruct (one_shot_loop_sim sk) as (_ & Hr & Hp).
  split; [exact Hp|]. intros r Hne. rewrite Hr.
  destruct (Z.eqb_spec r REG_CONFIG); [contradiction | reflexivity].
Qed.

(** What a configuration setter adds to the log, on any bus. *)
Lemma run_setter_events bus x s :
  self (snd (run_setter bus x s)) = self s /\
  log (snd (run_setter bus x s)) = log s ++ setter_events bus (log s) (self s) x.
Proof.
  rewrite run_setter_unfold. unfold readConfig, writeConfig, setter_events.
  cbv beta iota zeta delta [bind].
  read_cases bus REG_CONFIG uninit16 s; rewrite Hw.
  - destruct (writeReg_run bus REG_CONFIG
                (Codec.packField w (setter_field x) (setter_val x)) s')
      as (s2 & E2 & Hs2 & Hl2).
    rewrite E2. cbn [fst snd]. split; [congruence|].
    rewrite Hl2, Hlog, Hself, <- app_assoc. reflexivity.
  - split; assumption.
Qed.

(** X16. On any bus, whatever the two [setMode] calls and the read
    return, a pass through [loop()] keeps the facade as it is and adds
    to the log, in this order and nothing else: the events of
    [setMode(ONE_SHOT)] (the configuration read and, when it delivers,
    the write with the mode field set to 3), a wait of 30, the read of
    the temperature register, the events of [setMode(SHUTDOWN)], a wait
    of 2000. Every transaction names the facade's port and address. It
    prints the temperature when the temperature read delivers a word
    and the failure line otherwise. *)
Theorem one_shot_loop_any_bus :
  forall (bus : Bus) (sk : Sketch),
    let sk' := one_shot_loop bus sk in
    let d := self (tmp sk) in
    let e1 := setter_events bus (log (tmp sk)) d (SSetMode ONE_SHOT) in
    let h1 := log (tmp sk) ++ e1 ++ [EvDelay 30] in
    let e2 := snd (read_outcome bus h1 d REG_TEMP) in
    let h2 := h1 ++ e2 in
    let e3 := setter_events bus h2 d (SSetMode SHUTDOWN) in
    self (tmp sk') = d /\
    log (tmp sk') = h2 ++ e3 ++ [EvDelay 2000] /\
    Forall (addressed_to d) e1 /\ Forall (addressed_to d) e2 /\
    Forall (addressed_to d) e3 /\
    serial sk' = serial sk ++
                 match fst (read_outcome bus h1 d REG_TEMP) with
                 | Some w => [SPrint "One-shot Temp: "%string;
                              SPrintFloat (rawToCelsius (s16 w)) 4;
                              SPrintln " C"%string]
                 | None => [SPrintln "One-shot read failed"%string]
                 end.
Proof.
  intros bus sk. cbv zeta.
  assert (Haddr : forall x s,
             Forall (addressed_to (self s)) (setter_events bus (log s) (self s) x)).
  { intros x s. destruct (stable_setter bus x s) as (_ & evs & Hl & Ha).
    destruct (run_setter_events bus x s) as (_ & Hl').
    rewrite Hl' in Hl. apply app_inv_head in Hl. now rewrite Hl. }
  assert (Hrd : forall h d reg, Forall (addressed_to d) (snd (read_outcome bus h d reg))).
  { intros h d reg. destruct (read_outcome_shape bus h d reg) as (got & ->).
    destruct (pointer_status bus h d reg =? 0); repeat constructor. }
  unfold one_shot_loop.
  change (setMode bus ONE_SHOT) with (run_setter bus (SSetMode ONE_SHOT)).
  change (setMode bus SHUTDOWN) with (run_setter bus (SSetMode SHUTDOWN)).
  pose proof (Haddr (SSetMode ONE_SHOT) (tmp sk)) as Ha1.
  destruct (run_setter_events bus (SSetMode ONE_SHOT) (tmp sk)) as (Hs1 & Hl1).
  destruct (run_setter bus (SSetMode ONE_SHOT) (tmp sk)) as [r1 t1].
  cbn [snd] in Hs1, Hl1. cbv beta iota delta [delay emit].
  set (d := self (tmp sk)) in *.
  set (e1 := setter_events bus (log (tmp sk)) d (SSetMode ONE_SHOT)) in *.
  unfold_getters.
  match goal with
  | |- context [readReg ?b ?r ?v ?st] => read_cases b r v st
  end;
    cbn [self log] in Hself, Hlog, Hw;
    rewrite Hs1 in Hself; rewrite Hs1, Hl1, <- !app_assoc in Hlog;
    rewrite Hs1, Hl1, <- !app_assoc in Hw;
    match goal with
    | |- context [run_setter ?b ?x ?st] =>
        pose proof (Haddr x st) as Ha3;
        destruct (run_setter_events b x st) as (Hs4 & Hl4);
        destruct (run_setter b x st) as [r4 t4]
    end;
    cbn [snd tmp serial self log] in *;
    rewrite Hself, Hlog in Hl4; rewrite Hself, Hlog in Ha3;
    rewrite Hw; rewrite <- ?app_assoc;
    (split; [congruence|]);
    (split; [rewrite Hl4, <- !app_assoc; reflexivity|]);
    (split; [exact Ha1|]);
    (split; [apply Hrd|]);
    (split; [exact Ha3 | reflexivity]).
Qed.

(** X17. [setup()] returns exactly when [begin(0x49)] succeeds. When
    the identity check fails it prints the not-found line and parks in
    the endless wait with the state [begin] left: no configuration
    register is read or written. Either way the facade is bound to
    address 0x49 on its port. *)
Theorem one_shot_setup_outcome :
  forall (bus : Bus) (esp : bool) (sk : Sketch),
    let b := begin_default bus esp 0x49 (tmp sk) in
    let r := one_shot_setup bus esp sk in
    self (tmp (snd r)) = mkTMP11x (i2c (self (tmp sk))) 0x49 /\
    (fst b = false ->
     fst r = Hangs /\ tmp (snd r) = snd b /\
     serial (snd r) = serial sk ++ [SBegin 115200; SPrintln "TMP11x not found!"%string]) /\
    (fst b = true ->
     fst r = Returns /\
     serial (snd r)
     = serial sk ++ [SBegin 115200; SPrintln "One-shot mode demo ready"%string]).
Proof.
  intros bus esp sk. cbv zeta. unfold one_shot_setup.
  destruct (begin_binds bus esp 0x49 0xFF 0xFF 400000 (tmp sk)) as (Hb & _).
  fold (begin_default bus esp 0x49) in Hb.
  destruct (begin_default bus esp 0x49 (tmp sk)) as [ok t1]. cbn [fst snd] in *.
  destruct ok; cbv beta iota delta [negb].
  - change (setConversionRate bus CONV_125MS)
      with (run_setter bus (SSetConversionRate CONV_125MS)).
    change (setAveraging bus AVG_NONE) with (run_setter bus (SSetAveraging AVG_NONE)).
    change (setMode bus SHUTDOWN) with (run_setter bus (SSetMode SHUTDOWN)).
    destruct (stable_setter bus (SSetConversionRate CONV_125MS) t1) as (H2 & _).
    destruct (run_setter bus (SSetConversionRate CONV_125MS) t1) as [r2 t2].
    destruct (stable_setter bus (SSetAveraging AVG_NONE) t2) as (H3 & _).
    destruct (run_setter bus (SSetAveraging AVG_NONE) t2) as [r3 t3].
    destruct (stable_setter bus (SSetMode SHUTDOWN) t3) as (H4 & _).
    destruct (run_setter bus (SSetMode SHUTDOWN) t3) as [r4 t4].
    cbn [fst snd tmp serial] in *.
    split; [congruence|]. split; [discriminate|].
    intros _. split; [reflexivity|]. now rewrite <- app_assoc.
  - cbn [fst snd tmp serial]. split; [exact Hb|]. split; [|discriminate].
    intros _. split; [reflexivity|]. split; [reflexivity|]. now rewrite <- app_assoc.
Qed.

(** With no device on the bus [setup()] hangs. *)
Lemma one_shot_setup_outcome_witness :
  fst (one_shot_setup dead_bus false (mkSketch s0 [])) = Hangs.
Proof.
  apply (one_shot_setup_outcome dead_bus false (mkSketch s0 [])). reflexivity.
Defined.

(** X18. On the register-file device, when [begin(0x49)] succeeds,
    [setup()] returns with the device configured as the sketch says:
    the conversion rate reads CONV_125MS, the averaging AVG_NONE, the
    mode SHUTDOWN, and the therm/alert and polarity fields read what
    they read right after [begin]. *)
Theorem one_shot_setup_configures :
  forall (esp : bool) (sk : Sketch) (out : Z),
    let b := begin_default sim_bus esp 0x49 (tmp sk) in
    let t := tmp (snd (one_shot_setup sim_bus esp sk)) in
    fst b = true ->
    fst (get_field sim_bus Codec.FConvRate out t) = (true, conv_val CONV_125MS) /\
    fst (get_field sim_bus Codec.FAveraging out t) = (true, avg_val AVG_NONE) /\
    fst (get_field sim_bus Codec.FMode out t) = (true, mode_val SHUTDOWN) /\
    fst (get_field sim_bus Codec.FThermAlert out t)
    = fst (get_field sim_bus Codec.FThermAlert out (snd b)) /\
    fst (get_field sim_bus Codec.FPolarity out t)
    = fst (get_field sim_bus Codec.FPolarity out (snd b)).
Proof.
  intros esp sk out. cbv zeta. unfold one_shot_setup.
  destruct (begin_default sim_bus esp 0x49 (tmp sk)) as [ok t1]. cbn [fst snd].
  intros ->. cbv beta iota delta [negb].
  change (setConversionRate sim_bus CONV_125MS)
    with (run_setter sim_bus (SSetConversionRate CONV_125MS)).
  change (setAveraging sim_bus AVG_NONE) with (run_setter sim_bus (SSetAveraging AVG_NONE)).
  change (setMode sim_bus SHUTDOWN) with (run_setter sim_bus (SSetMode SHUTDOWN)).
  destruct (run_setter_sim (SSetConversionRate CONV_125MS) t1) as (t2 & E2 & _ & Hr2).
  rewrite E2.
  destruct (run_setter_sim (SSetAveraging AVG_NONE) t2) as (t3 & E3 & _ & Hr3).
  rewrite E3.
  destruct (run_setter_sim (SSetMode SHUTDOWN) t3) as (t4 & E4 & _ & Hr4).
  rewrite E4. cbn [snd tmp].
  assert (Hget : forall t g,
             fst (get_field sim_bus g out t)
             = (true, Codec.unpackField (u16 (reg_of t REG_CONFIG)) g)).
  { intros t g. destruct (get_field_sim g out t) as (t' & E & _ & _). now rewrite E. }
  rewrite !Hget, Hr4, Hr3, Hr2.
  change (REG_CONFIG =? REG_CONFIG) with true. cbv beta iota.
  cbn [setter_field setter_val].
  rewrite !(u16_small (Codec.packField _ _ _)) by apply packField_range.
  set (c := u16 (reg_of t1 REG_CONFIG)).
  assert (Hc : 0 <= c < 2 ^ 16) by apply u16_range.
  assert (Hother : forall w f g v,
             0 <= w < 2 ^ 16 -> f <> g ->
             Codec.unpackField (Codec.packField w f v) g = Codec.unpackField w g)
    by (intros; now apply unpackField_other).
  repeat split; f_equal.
  - rewrite (Hother _ Codec.FMode Codec.FConvRate)
      by (try apply packField_range; discriminate).
    rewrite (Hother _ Codec.FAveraging Codec.FConvRate)
      by (try apply packField_range; discriminate).
    now rewrite unpackField_packField.
  - rewrite (Hother _ Codec.FMode Codec.FAveraging)
      by (try apply packField_range; discriminate).
    now rewrite unpackField_packField.
  - now rewrite unpackField_packField.
  - rewrite (Hother _ Codec.FMode Codec.FThermAlert)
      by (try apply packField_range; discriminate).
    rewrite (Hother _ Codec.FAveraging Codec.FThermAlert)
      by (try apply packField_range; discriminate).
    now rewrite (Hother _ Codec.FConvRate Codec.FThermAlert) by (try exact Hc; discriminate).
  - rewrite (Hother _ Codec.FMode Codec.FPolarity)
      by (try apply packField_range; discriminate).
    rewrite (Hother _ Codec.FAveraging Codec.FPolarity)
      by (try apply packField_range; discriminate).
    now rewrite (Hother _ Codec.FConvRate Codec.FPolarity) by (try exact Hc; discriminate).
Qed.

(** The device that holds the TMP117 identity: [setup()] leaves the
    mode at SHUTDOWN. *)
Lemma one_shot_setup_configures_witness :
  fst (get_field sim_bus Codec.FMode 0
         (tmp (snd (one_shot_setup sim_bus false (mkSketch s_tmp117 [])))))
  = (true, mode_val SHUTDOWN).
Proof.
  apply (one_shot_setup_configures false (mkSketch s_tmp117 []) 0). reflexivity.
Defined.
